(** * stockpriceupdater: the quote-refresh script of [scripts/code.js]

    A shallow embedding of the Apps Script program ([updateMasterList],
    [URLFromExchange], [lookupQuote], [getTimeNow]) together with the
    parts of the JavaScript language and of the Apps Script services it
    calls, followed by the properties of the specification.

    Conventions of the model.
    - A JavaScript string is a [string]: code units below 256.
    - A JavaScript Number is a [number]: [NaN], an infinity, or a
      rational.  A number read from a text is the exact rational the
      digits denote, where the runtime keeps the nearest binary64 value
      (and an infinity for a text beyond the range); the two zeros are
      one value.  The product [Math.random() * 1000] is rounded to
      binary64 as the runtime rounds it.
        - The spreadsheet, the network, the clock and the random generator
      are the environment: the sheet is a grid of cells in the state, the
      other three are oracles of [Env] indexed by the number of calls
      made so far.  [SpreadsheetApp.openById] and [getSheetByName] are
      taken to succeed: a run starts with the sheet in hand.
    - The text [String(x)] of a number that is not an integer is the
      shortest decimal that rounds to the same binary64 value; it is
      supplied by [Env] as well.
    - [Logger.log] has no effect on the sheet or the network and is
      left out. *)

From Stdlib Require Import Ascii String QArith Qround.
From stdpp Require Import gmap strings list pretty.

Open Scope Z_scope.

(** ** JavaScript values *)

Module JS.

(** Numbers.  A finite value is kept in lowest terms, so that equal
    numbers are equal terms. *)
Inductive number : Type :=
  | NaN
  | Inf (negative : bool)
  | Num (q : Q).

Definition of_Z (z : Z) : number := Num (inject_Z z).

(** [m / 10^k], in lowest terms: the value of a decimal literal such as
    [28.2] ([decimal 282 1]). *)
Definition decimal (m : Z) (k : nat) : number :=
  Num (Qred (m # Pos.of_nat (10 ^ k))).

Definition minus_one : number := of_Z (-1).

(** [x == y] on numbers: [NaN] equals nothing. *)
Definition Number_equal (x y : number) : bool :=
  match x, y with
  | Num p, Num q => Qeq_bool p q
  | Inf a, Inf b => bool_decide (a = b)
  | _, _ => false
  end.

(** [x >= 0] *)
Definition at_least_zero (x : number) : bool :=
  match x with
  | NaN => false
  | Inf negative => negb negative
  | Num q => Qle_bool 0 q
  end.

Definition negate (x : number) : number :=
  match x with
  | NaN => NaN
  | Inf b => Inf (negb b)
  | Num q => Num (Qred (- q))
  end.

(** *** Characters *)

Definition code (c : ascii) : nat := nat_of_ascii c.

Definition is_digit (c : ascii) : bool :=
  (48 <=? code c)%nat && (code c <=? 57)%nat.

Definition digit_value (c : ascii) : Z := Z.of_nat (code c) - 48.

(** LineTerminator: LF and CR (the two of the four that are below 256). *)
Definition is_line_terminator (c : ascii) : bool :=
  (code c =? 10)%nat || (code c =? 13)%nat.

(** StrWhiteSpaceChar below 256: TAB, LF, VT, FF, CR, SP, NBSP. *)
Definition is_white_space (c : ascii) : bool :=
  ((9 <=? code c)%nat && (code c <=? 13)%nat)
  || (code c =? 32)%nat || (code c =? 160)%nat.

(** The double quote character, as a one-character string. *)
Definition dquote : string := String (ascii_of_nat 34) "".

(** *** Strings *)

(** [strip_prefix p s]: the rest of [s] after [p], if [s] starts with [p]. *)
Fixpoint strip_prefix (p s : string) : option string :=
  match p, s with
  | EmptyString, _ => Some s
  | String a p', String b s' =>
      if bool_decide (a = b) then strip_prefix p' s' else None
  | String _ _, EmptyString => None
  end.

(** [s.replace(pat, by)] with a string pattern: only the first
    occurrence of [pat] is replaced. *)
Fixpoint replace (pat by_ s : string) : string :=
  match strip_prefix pat s with
  | Some rest => by_ +:+ rest
  | None =>
      match s with
      | EmptyString => EmptyString
      | String c s' => String c (replace pat by_ s')
      end
  end.

(** The longest run of characters satisfying [p] at the start of [s], and
    what follows it. *)
Fixpoint span (p : ascii -> bool) (s : string) : string * string :=
  match s with
  | EmptyString => (EmptyString, EmptyString)
  | String c s' =>
      if p c then let '(run, rest) := span p s' in (String c run, rest)
      else (EmptyString, s)
  end.

Fixpoint trim_start (s : string) : string :=
  match s with
  | String c s' => if is_white_space c then trim_start s' else s
  | EmptyString => EmptyString
  end.

(** The mathematical value of a run of decimal digits. *)
Fixpoint digits_value_from (acc : Z) (ds : string) : Z :=
  match ds with
  | EmptyString => acc
  | String c ds' => digits_value_from (10 * acc + digit_value c) ds'
  end.

Definition digits_value (ds : string) : Z := digits_value_from 0 ds.

(** *** parseFloat *)

(** ExponentPart, when present at the start of [s]: [e] or [E], an
    optional sign, at least one digit.  The result is the exponent and
    what follows it; [0] and [s] when there is no exponent part. *)
Definition exponent_part (s : string) : Z * string :=
  match s with
  | String c s1 =>
      if bool_decide (c = "e"%char) || bool_decide (c = "E"%char) then
        let '(negative, s2) :=
          match s1 with
          | String sg r =>
              if bool_decide (sg = "-"%char) then (true, r)
              else if bool_decide (sg = "+"%char) then (false, r)
              else (false, s1)
          | EmptyString => (false, s1)
          end in
        let '(ds, rest) := span is_digit s2 in
        if bool_decide (ds = "") then (0, s)
        else (if negative then - digits_value ds else digits_value ds, rest)
      else (0, s)
  | EmptyString => (0, s)
  end.

(** [m * 10^e] as an exact rational in lowest terms. *)
Definition scale10 (m : Z) (e : Z) : Q :=
  if 0 <=? e then Qred (inject_Z (m * 10 ^ e))
  else Qred (m # Z.to_pos (10 ^ (- e))).

(** The longest prefix of [s] that is a StrUnsignedDecimalLiteral, as a
    number, and what follows it; [None] when no prefix is one. *)
Definition read_unsigned (s : string) : option (number * string) :=
  match strip_prefix "Infinity" s with
  | Some rest => Some (Inf false, rest)
  | None =>
      let '(ip, r1) := span is_digit s in
      let '(fp, r2) :=
        match r1 with
        | String c r =>
            if bool_decide (c = "."%char) then span is_digit r
            else (EmptyString, r1)
        | EmptyString => (EmptyString, r1)
        end in
      if bool_decide (ip = "") && bool_decide (fp = "") then None
      else
        let '(e, rest) := exponent_part r2 in
        Some (Num (scale10 (digits_value (ip +:+ fp))
                           (e - Z.of_nat (String.length fp))),
              rest)
  end.

Definition unsigned_literal (s : string) : number :=
  match read_unsigned s with
  | Some (x, _) => x
  | None => NaN
  end.

(** [parseFloat(s)]: leading white space is skipped, then the longest
    prefix that is a StrDecimalLiteral is read; anything after it is
    ignored. *)
Definition parseFloat (s : string) : number :=
  match trim_start s with
  | String c rest =>
      if bool_decide (c = "-"%char) then negate (unsigned_literal rest)
      else if bool_decide (c = "+"%char) then unsigned_literal rest
      else unsigned_literal (String c rest)
  | EmptyString => NaN
  end.

(** *** parseInt *)

Definition is_hex_digit (c : ascii) : bool :=
  is_digit c
  || ((97 <=? code c)%nat && (code c <=? 102)%nat)
  || ((65 <=? code c)%nat && (code c <=? 70)%nat).

Definition hex_digit_value (c : ascii) : Z :=
  if is_digit c then digit_value c
  else if (97 <=? code c)%nat then Z.of_nat (code c) - 87
  else Z.of_nat (code c) - 55.

Fixpoint hex_value_from (acc : Z) (ds : string) : Z :=
  match ds with
  | EmptyString => acc
  | String c ds' => hex_value_from (16 * acc + hex_digit_value c) ds'
  end.

(** The digits of [parseInt] after the sign: radix 16 after [0x] or
    [0X], radix 10 otherwise; [None] (NaN) when there is no digit. *)
Definition unsigned_integer (s : string) : option Z :=
  match s with
  | String "0" (String x rest) =>
      if bool_decide (x = "x"%char) || bool_decide (x = "X"%char) then
        let '(ds, _) := span is_hex_digit rest in
        if bool_decide (ds = "") then None else Some (hex_value_from 0 ds)
      else
        let '(ds, _) := span is_digit s in Some (digits_value ds)
  | _ =>
      let '(ds, _) := span is_digit s in
      if bool_decide (ds = "") then None else Some (digits_value ds)
  end.

(** [parseInt(s)] with no radix argument.  The result is an integer or
    NaN, here [None]. *)
Definition parseInt (s : string) : option Z :=
  match trim_start s with
  | String c rest =>
      if bool_decide (c = "-"%char) then Z.opp <$> unsigned_integer rest
      else if bool_decide (c = "+"%char) then unsigned_integer rest
      else unsigned_integer (String c rest)
  | EmptyString => None
  end.

(** *** ToNumber of a string *)

Fixpoint trim_end (s : string) : string :=
  match s with
  | EmptyString => EmptyString
  | String c s' =>
      let t := trim_end s' in
      if bool_decide (t = "") && is_white_space c then EmptyString
      else String c t
  end.

(** The value of the digits [ds] in the given radix, [None] when a
    character is not a digit of that radix. *)
Fixpoint radix_value (radix acc : Z) (ds : string) : option Z :=
  match ds with
  | EmptyString => Some acc
  | String c ds' =>
      if is_hex_digit c && (hex_digit_value c <? radix)
      then radix_value radix (radix * acc + hex_digit_value c) ds'
      else None
  end.

(** HexIntegerLiteral, OctalIntegerLiteral and BinaryIntegerLiteral:
    [None] when [t] does not start as one of them. *)
Definition radix_literal (t : string) : option number :=
  match t with
  | String "0" (String x ds) =>
      let radix :=
        if bool_decide (x = "x"%char) || bool_decide (x = "X"%char) then Some 16
        else if bool_decide (x = "o"%char) || bool_decide (x = "O"%char) then Some 8
        else if bool_decide (x = "b"%char) || bool_decide (x = "B"%char) then Some 2
        else None in
      match radix with
      | Some r =>
          Some (if bool_decide (ds = "") then NaN
                else match radix_value r 0 ds with
                     | Some v => of_Z v
                     | None => NaN
                     end)
      | None => None
      end
  | _ => None
  end.

(** A whole string as a StrDecimalLiteral: NaN when something is left
    after the literal. *)
Definition decimal_literal (t : string) : number :=
  let '(negative, u) :=
    match t with
    | String c r =>
        if bool_decide (c = "-"%char) then (true, r)
        else if bool_decide (c = "+"%char) then (false, r)
        else (false, t)
    | EmptyString => (false, t)
    end in
  match read_unsigned u with
  | Some (x, EmptyString) => if negative then negate x else x
  | _ => NaN
  end.

(** ToNumber applied to a string (StringToNumber): white space around
    the literal is dropped, the empty string is [0], and the whole rest
    must be one numeric literal. *)
Definition ToNumber (s : string) : number :=
  let t := trim_end (trim_start s) in
  if bool_decide (t = "") then of_Z 0
  else
    match radix_literal t with
    | Some x => x
    | None => decimal_literal t
    end.

(** *** Number to string *)

Definition is_integer (q : Q) : bool := bool_decide (Qden q = 1%positive).

(** [String(x)].  For NaN, the infinities and the integers below
    [10^21] in magnitude the language fixes the text.  For any other
    value the text is the shortest decimal that reads back to the same
    binary64 value; it depends on the rounding this model leaves out and
    is supplied by [other]. *)
Definition Number_toString (other : Q -> string) (x : number) : string :=
  match x with
  | NaN => "NaN"
  | Inf false => "Infinity"
  | Inf true => "-Infinity"
  | Num q =>
      if is_integer q && (Z.abs (Qnum q) <? 10 ^ 21) then pretty (Qnum q)
      else other q
  end.

(** *** Arithmetic *)

(** The integer nearest to [n / d], the even one of the two when [n / d]
    lies half way ([d] is positive). *)
Definition round_half_even (n d : Z) : Z :=
  let q := n / d in
  let r := n mod d in
  if 2 * r <? d then q
  else if d <? 2 * r then q + 1
  else if Z.even q then q else q + 1.

(** [p] rounded to 53 significant bits ([p] is not negative). *)
Definition round53 (p : Z) : Z :=
  let shift := Z.log2 p - 52 in
  if shift <=? 0 then p
  else round_half_even p (2 ^ shift) * 2 ^ shift.

(** [x * y] for two binary64 values that are not negative and whose
    product is in the normal range: the exact product, a fraction over
    a power of two, rounded to the nearest binary64 value. *)
Definition multiply (x y : Q) : Q :=
  let p := Qmult x y in
  round53 (Qnum p) # Qden p.

Definition Math_floor (q : Q) : Z := Qfloor q.

End JS.

Import JS.

(** ** The Apps Script services *)

(** The content of a cell: text (a blank cell reads as the empty
    string) or a number. *)
Inductive value : Type :=
  | VText (s : string)
  | VNumber (x : number).

Inductive exn : Type :=
  | TypeError (msg : string)   (** a property read on [null] or [undefined] *)
  | Exception (msg : string)   (** raised by a service *)
  | Thrown (v : string).       (** [throw "..."] *)

(** How a statement ends: normally with a value, or by throwing. *)
Inductive completion (A : Type) : Type :=
  | Normal (a : A)
  | Throw (e : exn).
Arguments Normal {A} a.
Arguments Throw {A} e.

Record HTTPResponse : Type := mkResponse {
  getResponseCode : Z;
  getContentText : string
}.

(** One call of [UrlFetchApp.fetch] with [muteHttpExceptions]: a
    response with whatever status, or an exception of the transport. *)
Inductive fetch_outcome : Type :=
  | Responds (page : HTTPResponse)
  | Fails (msg : string).

(** What the script does to the sheet and the network, in order. *)
Inductive event : Type :=
  | EGetValue (row col : nat)
  | ESetValue (row col : nat) (v : value)
  | EGetValues (row col numRows : nat)
  | ESetValues (row col numRows : nat) (vs : list value)
  | EFetch (url : string).

(** The environment: the answer of the network to the [n]-th fetch of
    the execution, the [n]-th draw of [Math.random] (as the numerator of
    a fraction over [2^53]), the text of the [n]-th reading of the clock
    as [toLocaleTimeString() + ' ' + toLocaleDateString()] gives it, and
    the text of the numbers [Number_toString] leaves open. *)
Record Env : Type := mkEnv {
  network : nat -> string -> fetch_outcome;
  random : nat -> N;
  clock : nat -> string;
  fraction_text : Q -> string
}.

(** The state: the sheet "buffer" as a map from (row, column) to
    content, the number of calls made to each oracle, and the trace. *)
Record State : Type := mkState {
  cells : gmap (nat * nat) value;
  fetched : nat;
  drawn : nat;
  ticks : nat;
  trace : list event
}.

Definition M (A : Type) : Type := State -> completion A * State.

#[global] Instance M_ret : MRet M := fun A a st => (Normal a, st).

#[global] Instance M_bind : MBind M := fun A B f m st =>
  match m st with
  | (Normal a, st') => f a st'
  | (Throw e, st') => (Throw e, st')
  end.

#[global] Instance M_fmap : FMap M := fun A B f m => a ← m; mret (f a).

Definition throw {A : Type} (e : exn) : M A := fun st => (Throw e, st).

Definition gets {A : Type} (f : State -> A) : M A :=
  fun st => (Normal (f st), st).

Definition modify (f : State -> State) : M unit :=
  fun st => (Normal tt, f st).

(** [try { body } catch (err) { handler }] *)
Definition try_catch {A : Type} (body : M A) (handler : exn -> M A) : M A :=
  fun st =>
    match body st with
    | (Normal a, st') => (Normal a, st')
    | (Throw e, st') => handler e st'
    end.

(** [for (var i = 0; i < n; i++) body], threading the variables the
    body assigns. *)
Fixpoint for_from {V : Type} (i count : nat) (body : nat -> V -> M V)
    (acc : V) : M V :=
  match count with
  | O => mret acc
  | S count' => acc' ← body i acc; for_from (S i) count' body acc'
  end.

Definition for_loop {V : Type} (n : nat) (body : nat -> V -> M V)
    (acc : V) : M V :=
  for_from 0 n body acc.

Definition log (e : event) (st : State) : State :=
  mkState (cells st) (fetched st) (drawn st) (ticks st) (trace st ++ [e]).

Definition read_cell (row col : nat) (st : State) : value :=
  default (VText "") (cells st !! (row, col)).

Definition write_cell (row col : nat) (v : value) (st : State) : State :=
  mkState (<[(row, col) := v]> (cells st))
          (fetched st) (drawn st) (ticks st) (trace st).

(** [sheet.getRange(row, col).getValue()] *)
Definition getValue (row col : nat) : M value :=
  v ← gets (read_cell row col);
  modify (log (EGetValue row col));;
  mret v.

(** [sheet.getRange(row, col).setValue(v)] *)
Definition setValue (row col : nat) (v : value) : M unit :=
  modify (write_cell row col v);;
  modify (log (ESetValue row col v)).

(** [sheet.getRange(row, col, numRows, 1)]: the number of rows must be
    an integer, at least 1; the result is that number. *)
Definition getRange_rows (numRows : option Z) : M nat :=
  match numRows with
  | Some n =>
      if 1 <=? n then mret (Z.to_nat n)
      else throw (Exception "The number of rows in the range must be at least 1.")
  | None => throw (Exception "The number of rows in the range must be at least 1.")
  end.

(** [sheet.getRange(row, col, numRows, 1).getValues()]: one row [[v]]
    per cell, kept as [v]. *)
Definition getValues (row col : nat) (numRows : option Z) : M (list value) :=
  n ← getRange_rows numRows;
  vs ← gets (fun st => (fun i => read_cell (row + i) col st) <$> seq 0 n);
  modify (log (EGetValues row col n));;
  mret vs.

Fixpoint write_column (row col : nat) (vs : list value) (st : State) : State :=
  match vs with
  | [] => st
  | v :: vs' => write_column (S row) col vs' (write_cell row col v st)
  end.

(** An element of the array [prices]: a hole left by [Array(n)], or the
    one-element array [[quote]]. *)
Inductive slot : Type :=
  | undefined
  | row (quote : number).

Definition slot_value (s : slot) : option value :=
  match s with
  | undefined => None
  | row q => Some (VNumber q)
  end.

(** [sheet.getRange(row, col, numRows, 1).setValues(rows)]: the array
    must have one one-element row per row of the range. *)
Definition setValues (row col : nat) (numRows : option Z) (rows : list slot)
    : M unit :=
  n ← getRange_rows numRows;
  match mapM slot_value rows with
  | Some vs =>
      if bool_decide (length vs = n) then
        modify (write_column row col vs);;
        modify (log (ESetValues row col n vs))
      else throw (Exception "The number of rows in the data does not match the number of rows in the range.")
  | None => throw (Exception "The parameters don't match the method signature for setValues.")
  end.

(** ** The script *)

Section Script.

Variable env : Env.

(** [UrlFetchApp.fetch(url, options)] *)
Definition UrlFetchApp_fetch (url : string) : M HTTPResponse :=
  n ← gets fetched;
  modify (fun st => mkState (cells st) (S (fetched st)) (drawn st)
                            (ticks st) (trace st ++ [EFetch url]));;
  match network env n url with
  | Responds page => mret page
  | Fails msg => throw (Exception msg)
  end.

(** [Math.random()]: a fraction in [0, 1). *)
Definition Math_random : M Q :=
  n ← gets drawn;
  modify (fun st => mkState (cells st) (fetched st) (S (drawn st))
                            (ticks st) (trace st));;
  mret (Z.of_N (random env n mod 2 ^ 53) # 2 ^ 53).

(** [String(v)] and [String([v])] for the value [v] of a cell. *)
Definition String_value (v : value) : string :=
  match v with
  | VText s => s
  | VNumber x => Number_toString (fraction_text env) x
  end.

(** [String(a[i])] for an array [a] of one-element rows:
    [String(undefined)] past the end. *)
Definition String_element (a : list value) (i : nat) : string :=
  match a !! i with
  | Some v => String_value v
  | None => "undefined"
  end.

(** GET THE DATETIMESTAMP *)
Definition getTimeNow : M string :=
  n ← gets ticks;
  modify (fun st => mkState (cells st) (fetched st) (drawn st)
                            (S (ticks st)) (trace st));;
  mret (clock env n).

(** The [switch] of [URLFromExchange]: [suffix] stays [''] when no
    [case] applies. *)
Definition suffix_of (exchange : string) : string :=
  if bool_decide (exchange = "USA") then ""
  else if bool_decide (exchange = "SGX") then ".SI"
  else if bool_decide (exchange = "HKEX") then ".HK"
  else if bool_decide (exchange = "XSSC") then ".SS"
  else "".

(** FUNCTION: ALTER THE URL'S SUFFIX BASED ON WHICH EXCHANGE IS BEING INVOKED *)
Definition URLFromExchange (symbol exchange : string) : M string :=
  let suffix := suffix_of exchange in
  r ← Math_random;
  mret ("https://finance.yahoo.com/quote/" +:+ symbol +:+ suffix +:+ "?p="
        +:+ Number_toString (fraction_text env)
              (of_Z (Math_floor (multiply r 1000)))).

(** The [for] loop of [lookupQuote]: [n] attempts are left, [page] is
    the variable [page] ([None] before the first assignment). *)
Fixpoint attempts (n : nat) (url : string) (page : option HTTPResponse)
    : M (option HTTPResponse) :=
  match n with
  | O => mret page
  | S n' =>
      p ← UrlFetchApp_fetch url;
      if getResponseCode p =? 200 then mret (Some p)
      else attempts n' url (Some p)
  end.

(** The body of the [try] of [lookupQuote]; its value is [page]. *)
Definition load_page (url : string) : M HTTPResponse :=
  page ← attempts 3 url None;
  match page with
  | Some p =>
      if negb (getResponseCode p =? 200)
      then throw (Thrown "Page failed to load even after 3 attempts.")
      else mret p
  | None => throw (TypeError "Cannot call method getResponseCode of undefined")
  end.

(** The text the first regex starts with: [<span class=], a double
    quote, [Trsdu]. *)
Definition marker : string := "<span class=" +:+ dquote +:+ "Trsdu".

(** [(.*?)(close)] at the start of [s]: the shortest run of characters
    other than line terminators that is followed by [close], with
    [close]. *)
Fixpoint lazy_until (close s : string) : option string :=
  match strip_prefix close s with
  | Some _ => Some close
  | None =>
      match s with
      | String c s' =>
          if is_line_terminator c then None
          else String c <$> lazy_until close s'
      | EmptyString => None
      end
  end.

Definition regex1_at (s : string) : option string :=
  rest ← strip_prefix marker s;
  m ← lazy_until "</span>" rest;
  Some (marker +:+ m).

(** regex 1, [/(marker)(.*?)(\<\/span\>)/.exec(s, 1)[0]]: the match at
    the leftmost position where there is one; [None] is [null]. *)
Fixpoint regex1_exec (s : string) : option string :=
  match regex1_at s with
  | Some m => Some m
  | None =>
      match s with
      | String _ s' => regex1_exec s'
      | EmptyString => None
      end
  end.

(** The character class of regex 2: a digit, a period or a comma. *)
Definition is_numeric (c : ascii) : bool :=
  is_digit c || bool_decide (c = "."%char) || bool_decide (c = ","%char).

(** regex 2 at the start of [s]: [>], a run of digits, periods and
    commas, [<].  The star is greedy, and giving characters back cannot
    help: each of them is not [<]. *)
Definition regex2_at (s : string) : option string :=
  match s with
  | String c s1 =>
      if bool_decide (c = ">"%char) then
        let '(run, rest) := span is_numeric s1 in
        match rest with
        | String d _ =>
            if bool_decide (d = "<"%char) then Some (">" +:+ run +:+ "<")
            else None
        | EmptyString => None
        end
      else None
  | EmptyString => None
  end.

(** regex 2 of [lookupQuote], [.exec(s, 1)[0]]: the match at the
    leftmost position where there is one; [None] is [null]. *)
Fixpoint regex2_exec (s : string) : option string :=
  match regex2_at s with
  | Some m => Some m
  | None =>
      match s with
      | String _ s' => regex2_exec s'
      | EmptyString => None
      end
  end.

(** The statements of [lookupQuote] after the [try]: the two regex
    searches and the conversion.  Reading [[0]] of a [null] match
    throws. *)
Definition extract (html : string) : M number :=
  match regex1_exec html with
  | None => throw (TypeError "Cannot read property 0 of null")
  | Some initMatch0 =>
      match regex2_exec initMatch0 with
      | None => throw (TypeError "Cannot read property 0 of null")
      | Some finalMatch =>
          mret (parseFloat (replace "," "" (replace ">" "" (replace "<" "" finalMatch))))
      end
  end.

(** LOOK UP THE QUOTE WITH 3 ATTEMPTS.  [symbol] is only logged. *)
Definition lookupQuote (symbol url : string) : M number :=
  loaded ← try_catch (Some <$> load_page url) (fun err => mret None);
  match loaded with
  | None => mret minus_one
  | Some page => extract (getContentText page)
  end.

(** [String(prices[k])] as the conversions of [prices[k]] to a
    primitive compute it: the text of the one element of [[quote]];
    [undefined] gives the text [undefined]. *)
Definition String_slot (s : slot) : string :=
  match s with
  | undefined => "undefined"
  | row quote => Number_toString (fraction_text env) quote
  end.

(** [prices[k] != -1].  An array is compared with a number through its
    text read as a number; [undefined] equals no number. *)
Definition differs_from_minus_one (s : slot) : bool :=
  match s with
  | undefined => true
  | row _ => negb (Number_equal (ToNumber (String_slot s)) minus_one)
  end.

(** [parseFloat(prices[k])] *)
Definition parseFloat_slot (s : slot) : number := parseFloat (String_slot s).

(** The two calls of an iteration of SUBSECTION D1: the URL of the
    row, then its quote. *)
Definition lookup (current_symbol current_exchange : string) : M number :=
  url ← URLFromExchange current_symbol current_exchange;
  lookupQuote current_symbol url.

(** The body of the loop of SUBSECTION D1.  [i] is below the length of
    [prices], so the assignment [prices[i] = [quote]] replaces a slot. *)
Definition lookup_body (symbols exchange : list value) (i : nat)
    (prices : list slot) : M (list slot) :=
  let current_symbol := String_element symbols i in
  let current_exchange := String_element exchange i in
  quote ← lookup current_symbol current_exchange;
  mret (<[i := row quote]> prices).

(** [updateMasterList], SECTION A to SUBSECTION D1: the value of
    [lastrow] ([None] is NaN) and the array [prices]. *)
Definition lookupPrices : M (option Z * list slot) :=
  k1 ← getValue 1 11;
  let lastrow := parseInt (String_value k1) in
  now ← getTimeNow;
  setValue 2 11 (VText now);;
  symbols ← getValues 2 1 (Z.pred <$> lastrow);
  exchange ← getValues 2 4 (Z.pred <$> lastrow);
  prices ← for_loop (length symbols) (lookup_body symbols exchange)
                    (replicate (length symbols) undefined);
  mret (lastrow, prices).

(** The body of the loop of SUBSECTION D2. *)
Definition update_body (prices : list slot) (k : nat) (_ : unit) : M unit :=
  let s := default undefined (prices !! k) in
  if differs_from_minus_one s
  then setValue (2 + k) 7 (VNumber (parseFloat_slot s))
  else mret tt.

(** [updateMasterList], SUBSECTION D2 - UPDATING THE VALUES *)
Definition updateValues (lastrow : option Z) (prices : list slot) : M unit :=
  setValues 2 6 (Z.pred <$> lastrow) prices;;
  for_loop (length prices) (update_body prices) tt.

(** THE MAIN FUNCTION *)
Definition updateMasterList : M unit :=
  '(lastrow, prices) ← lookupPrices;
  updateValues lastrow prices.

End Script.

(** The state a run leaves, and how it ends. *)
Definition exec {A : Type} (m : M A) (st : State) : State := snd (m st).
Definition outcome {A : Type} (m : M A) (st : State) : completion A := fst (m st).

(** The columns of the sheet "buffer": [new_price] is F, [buffered_price]
    is G; portfolio row [k] (from 0) is sheet row [2 + k]. *)
Definition new_price (st : State) (k : nat) : option value :=
  cells st !! (2 + k, 6)%nat.
Definition buffered_price (st : State) (k : nat) : option value :=
  cells st !! (2 + k, 7)%nat.
Definition LASTRUN (st : State) : option value := cells st !! (2, 11)%nat.

(** The rows of the portfolio as a run reads them from a sheet with
    [n] rows below the header: the texts of columns A and D. *)
Definition portfolio (env : Env) (st : State) (n : nat)
    : list (string * string) :=
  (fun k => (String_value env (read_cell (2 + k) 1 st),
             String_value env (read_cell (2 + k) 4 st))) <$> seq 0 n.

(** The refresh of the specification, to compare [lookupPrices] with:
    for every row, in input order, look the quote up and collect the
    results in a list. *)
Fixpoint lookup_in_order (env : Env) (rows : list (string * string))
    : M (list number) :=
  match rows with
  | [] => mret []
  | (symbol, exchange) :: rest =>
      quote ← lookup env symbol exchange;
      quotes ← lookup_in_order env rest;
      mret (quote :: quotes)
  end.

(** The [j]-th answer of the network, counted from the state [st], to a
    fetch of [url], and whether it carries status 200. *)
Definition answer (env : Env) (st : State) (url : string) (j : nat)
    : fetch_outcome :=
  network env (fetched st + j)%nat url.

Definition is_200 (o : fetch_outcome) : bool :=
  match o with
  | Responds page => getResponseCode page =? 200
  | Fails _ => false
  end.

Definition is_failure (o : fetch_outcome) : bool :=
  match o with
  | Responds _ => false
  | Fails _ => true
  end.

(** ** States and relations used to state the properties *)

(** The number of rows [getRange] accepts, if it accepts it. *)
Definition rows_of (numRows : option Z) : option nat :=
  match numRows with
  | Some n => if 1 <=? n then Some (Z.to_nat n) else None
  | None => None
  end.

(** The value of [lastrow] in a run that starts in [st]. *)
Definition lastrow_of (env : Env) (st : State) : option Z :=
  parseInt (String_value env (read_cell 1 11 st)).

(** The rows the loop of SUBSECTION D1 visits from iteration [i] on. *)
Definition rows_from (env : Env) (symbols exchange : list value)
    (i count : nat) : list (string * string) :=
  (fun j => (String_element env symbols j, String_element env exchange j))
    <$> seq i count.

(** The state of a run that started in [st] once the timestamp is
    written; the run stops here when the range of the columns is
    refused. *)
Definition after_timestamp (env : Env) (st : State) : State :=
  mkState (<[(2, 11)%nat := VText (clock env (ticks st))]> (cells st))
          (fetched st) (drawn st) (S (ticks st))
          ((trace st ++ [EGetValue 1 11])
             ++ [ESetValue 2 11 (VText (clock env (ticks st)))]).

(** The state in which the loop of SUBSECTION D1 starts: the two
    columns of [n] rows have been read. *)
Definition after_reading (env : Env) (st : State) (n : nat) : State :=
  log (EGetValues 2 4 n) (log (EGetValues 2 1 n) (after_timestamp env st)).

(** What [updateMasterList] does once the timestamp is written. *)
Definition after_stamping (env : Env) (st : State) : M unit :=
  '(lastrow, prices) ←
    (symbols ← getValues 2 1 (Z.pred <$> lastrow_of env st);
     exchange ← getValues 2 4 (Z.pred <$> lastrow_of env st);
     prices ← for_loop (length symbols) (lookup_body env symbols exchange)
                       (replicate (length symbols) undefined);
     mret (lastrow_of env st, prices));
  updateValues env lastrow prices.

(** The state after one more fetch of [url]. *)
Definition bump (url : string) (st : State) : State :=
  mkState (cells st) (S (fetched st)) (drawn st) (ticks st)
          (trace st ++ [EFetch url]).

(** A relation between the state before and the state after that every
    step of a computation keeps. *)
Definition keeps {A : Type} (R : State -> State -> Prop) (m : M A) : Prop :=
  forall st, R st (snd (m st)).

(** The sheet is not written. *)
Definition same_cells (st st' : State) : Prop := cells st' = cells st.

(** The trace only grows and the timestamp cell is not written. *)
Definition later (st st' : State) : Prop :=
  trace st `prefix_of` trace st' /\ LASTRUN st' = LASTRUN st.

(** Every character of [s] satisfies [p]. *)
Fixpoint every (p : ascii -> bool) (s : string) : bool :=
  match s with
  | EmptyString => true
  | String c s' => p c && every p s'
  end.

Definition not_minus (c : ascii) : bool := negb (bool_decide (c = "-"%char)).

(** NaN, plus infinity, or a finite number that is not below zero. *)
Definition nonnegative (x : number) : Prop :=
  match x with
  | NaN => True
  | Inf negative => negative = false
  | Num q => 0 <= Qnum q
  end.

(** [String(v)] read back as a number, by ToNumber and by
    [parseFloat], is [v] again.  The language guarantees it for every
    Number; here it is a condition on the texts the environment
    supplies. *)
Definition reads_back (env : Env) (v : number) : Prop :=
  ToNumber (Number_toString (fraction_text env) v) = v /\
  parseFloat (Number_toString (fraction_text env) v) = v.

(** ** Concrete pages, environments and sheets *)

Module Example.

(** The element the tutorial shows for BOC (Hong Kong), with the text
    of the price as a parameter. *)
Definition span_of (price : string) : string :=
  "<span class=" +:+ dquote
  +:+ "Trsdu(0.3s) Trsdu(0.3s) Fw(b) Fz(36px) Mb(-4px) D(b)" +:+ dquote
  +:+ " data-reactid=" +:+ dquote +:+ "14" +:+ dquote +:+ ">"
  +:+ price +:+ "</span>".

Definition page_of (price : string) : string :=
  "<html><body><div>" +:+ span_of price +:+ "</div></body></html>".

Definition page_without_marker : string :=
  "<html><body><div>Quote not found</div></body></html>".

(** The digits after the point of [r / d], at most [n] of them. *)
Fixpoint fraction_digits (n : nat) (r d : Z) : string :=
  match n with
  | O => ""
  | S n' =>
      if r =? 0 then ""
      else pretty (r * 10 / d) +:+ fraction_digits n' (r * 10 mod d) d
  end.

(** The text of a number that is not an integer and has a short
    decimal expansion, such as [28.2]. *)
Definition decimal_text (q : Q) : string :=
  let n := Z.abs (Qnum q) in
  let d := Z.pos (Qden q) in
  (if Qnum q <? 0 then "-" else "")
  +:+ pretty (n / d) +:+ "." +:+ fraction_digits 17 (n mod d) d.

Definition ok (body : string) : fetch_outcome := Responds (mkResponse 200 body).
Definition status (code : Z) : fetch_outcome := Responds (mkResponse code "").

(** An environment whose network gives the answers of [answers] in
    turn and status 404 ever after. *)
Definition env_of (answers : list fetch_outcome) : Env :=
  mkEnv (fun n _ => default (status 404) (answers !! n))
        (fun n => (N.of_nat n * 2 ^ 50 + 2 ^ 52)%N)
        (fun n => "9:47:59 PM HKT January 15, 2020")
        decimal_text.

(** Two rows, 2388 on HKEX and ES3 on SGX, with prices buffered by an
    earlier run. *)
Definition old_2388 : value := VNumber (decimal 2755 2).
Definition old_ES3 : value := VNumber (decimal 312 2).

Definition sheet : gmap (nat * nat) value :=
  list_to_map
    [ ((1, 11)%nat, VNumber (of_Z 3));
      ((2, 1)%nat, VNumber (of_Z 2388)); ((2, 4)%nat, VText "HKEX");
      ((3, 1)%nat, VText "ES3"); ((3, 4)%nat, VText "SGX");
      ((2, 7)%nat, old_2388); ((3, 7)%nat, old_ES3) ].

Definition start : State := mkState sheet 0 0 0 [].

(** First row: status 200 at once, price 28.200.  Second row: status
    500, then the transport fails.  Every later fetch: status 404. *)
Definition env_mixed : Env :=
  env_of [ok (page_of "28.200"); status 500; Fails "Timeout"].


(** First row: a page without the marker. *)
Definition env_no_marker : Env :=
  env_of [ok page_without_marker].

(** First row: a price with two thousands separators. *)
Definition env_two_commas : Env :=
  env_of [ok (page_of "1,234,567.89")].

End Example.

(** ** The first version of the script *)

(** [testwrite], the function of the first version that tries the
    write to column F out.  [lastrow] is read and not used. *)
Definition testwrite (env : Env) : M unit :=
  k1 ← getValue 1 11;
  let lastrow := parseInt (String_value env k1) in
  setValues 2 6 (Some 5)
    [row (of_Z 1); row (of_Z 2); row (of_Z 3); row (of_Z 4); row (of_Z 5)].

(** ** Further notions used to state the properties *)

Definition not_line_terminator (c : ascii) : bool := negb (is_line_terminator c).
Definition not_gt (c : ascii) : bool := negb (bool_decide (c = ">"%char)).

(** The counters of the oracles move by the given amounts at most. *)
Definition within (f d : nat) (st st' : State) : Prop :=
  (fetched st <= fetched st' <= fetched st + f)%nat /\
  (drawn st <= drawn st' <= drawn st + d)%nat.

(** No fetch and no draw. *)
Definition same_counters (st st' : State) : Prop :=
  fetched st' = fetched st /\ drawn st' = drawn st.

(** The state after one more draw of [Math.random]. *)
Definition draw (st : State) : State :=
  mkState (cells st) (fetched st) (S (drawn st)) (ticks st) (trace st).

(** The URL of a quote page with the parameter [n]. *)
Definition quote_url (symbol exchange : string) (n : Z) : string :=
  "https://finance.yahoo.com/quote/" +:+ symbol +:+ suffix_of exchange
  +:+ "?p=" +:+ pretty n.

(** The event is a write of the timestamp cell K2. *)
Definition writes_timestamp (e : event) : bool :=
  match e with
  | ESetValue r c _ => bool_decide (r = 2%nat) && bool_decide (c = 11%nat)
  | _ => false
  end.

(** The clock is not read and the events added are no writes of the
    timestamp cell. *)
Definition unstamped (st st' : State) : Prop :=
  ticks st' = ticks st /\
  exists es, trace st' = trace st ++ es /\ filter writes_timestamp es = [].

Module Edge.

(** The attributes that follow the marker in the element the tutorial
    shows, up to the end of the opening tag. *)
Definition attributes : string :=
  "(0.3s) Trsdu(0.3s) Fw(b) Fz(36px) Mb(-4px) D(b)" +:+ dquote
  +:+ " data-reactid=" +:+ dquote +:+ "14" +:+ dquote.

(** A sheet with the header row only: LASTROW is 1. *)
Definition header_only : State :=
  mkState {[ (1, 11)%nat := VNumber (of_Z 1) ]} 0 0 0 [].

(** No fetch is ever answered with status 200. *)
Definition env_offline : Env := Example.env_of [].

(** First row: status 500 three times.  Second row: status 200 with a
    page without the marker. *)
Definition env_failure_then_no_marker : Env :=
  Example.env_of [Example.status 500; Example.status 500; Example.status 500;
                  Example.ok Example.page_without_marker].

(** First row: status 200, price 28.200.  Second row: status 200 with a
    page without the marker. *)
Definition env_price_then_no_marker : Env :=
  Example.env_of [Example.ok (Example.page_of "28.200");
                  Example.ok Example.page_without_marker].


End Edge.

(** * Properties *)

(** ** Running monadic code *)

Lemma bind_run {A B : Type} (m : M A) (f : A -> M B) (st : State) :
  (m ≫= f) st =
  match m st with
  | (Normal a, st') => f a st'
  | (Throw e, st') => (Throw e, st')
  end.
Proof. reflexivity. Qed.

Lemma ret_run {A : Type} (a : A) (st : State) :
  mret (M := M) a st = (Normal a, st).
Proof. reflexivity. Qed.

Lemma fmap_run {A B : Type} (g : A -> B) (m : M A) (st : State) :
  (g <$> m) st =
  match m st with
  | (Normal a, st') => (Normal (g a), st')
  | (Throw e, st') => (Throw e, st')
  end.
Proof.
  change ((g <$> m) st) with ((m ≫= fun a => mret (g a)) st).
  rewrite bind_run. destruct (m st) as [[a|e] st']; reflexivity.
Qed.

Lemma bind_normal {A B : Type} (m : M A) (f : A -> M B) st a st' :
  m st = (Normal a, st') -> (m ≫= f) st = f a st'.
Proof. intros H. rewrite bind_run, H. reflexivity. Qed.

Lemma bind_throw {A B : Type} (m : M A) (f : A -> M B) st e st' :
  m st = (Throw e, st') -> (m ≫= f) st = (Throw e, st').
Proof. intros H. rewrite bind_run, H. reflexivity. Qed.

Lemma bind_inv {A B : Type} (m : M A) (f : A -> M B) st b st' :
  (m ≫= f) st = (Normal b, st') ->
  exists a st1, m st = (Normal a, st1) /\ f a st1 = (Normal b, st').
Proof.
  rewrite bind_run. destruct (m st) as [[a|e] st1]; [eauto | discriminate].
Qed.

Section Keeps.
Context (R : State -> State -> Prop) `{!PreOrder R}.

Lemma keeps_ret {A : Type} (a : A) : keeps R (mret a).
Proof. intros st. simpl. reflexivity. Qed.

Lemma keeps_throw {A : Type} (e : exn) : keeps R (throw (A := A) e).
Proof. intros st. simpl. reflexivity. Qed.

Lemma keeps_gets {A : Type} (f : State -> A) : keeps R (gets f).
Proof. intros st. simpl. reflexivity. Qed.

Lemma keeps_bind {A B : Type} (m : M A) (f : A -> M B) :
  keeps R m -> (forall a, keeps R (f a)) -> keeps R (m ≫= f).
Proof.
  intros Hm Hf st. rewrite bind_run. specialize (Hm st).
  destruct (m st) as [[a|e] st1]; simpl in *; [| exact Hm].
  etransitivity; [exact Hm | apply Hf].
Qed.

Lemma keeps_fmap {A B : Type} (g : A -> B) (m : M A) :
  keeps R m -> keeps R (g <$> m).
Proof. intros Hm. apply keeps_bind; [exact Hm | intros a; apply keeps_ret]. Qed.

Lemma keeps_try_catch {A : Type} (m : M A) (h : exn -> M A) :
  keeps R m -> (forall e, keeps R (h e)) -> keeps R (try_catch m h).
Proof.
  intros Hm Hh st. unfold try_catch. specialize (Hm st).
  destruct (m st) as [[a|e] st1]; simpl in *; [exact Hm |].
  etransitivity; [exact Hm | apply Hh].
Qed.

Lemma keeps_for_from {V : Type} (body : nat -> V -> M V) :
  (forall i acc, keeps R (body i acc)) ->
  forall count i acc, keeps R (for_from i count body acc).
Proof.
  intros Hb. induction count as [|count IH]; intros i acc; simpl.
  - apply keeps_ret.
  - apply keeps_bind; [apply Hb | intros a; apply IH].
Qed.
End Keeps.

#[local] Instance same_cells_preorder : PreOrder same_cells.
Proof.
  split; [intros st; reflexivity |].
  intros a b c Hab Hbc. unfold same_cells in *. congruence.
Qed.

Section Lookups.
Variable env : Env.

Lemma fetch_same_cells url : keeps same_cells (UrlFetchApp_fetch env url).
Proof.
  intros st. unfold UrlFetchApp_fetch. rewrite !bind_run. simpl.
  destruct (network env (fetched st) url); reflexivity.
Qed.

Lemma attempts_same_cells url n page : keeps same_cells (attempts env n url page).
Proof.
  revert page. induction n as [|n IH]; intros page; simpl.
  - apply keeps_ret; apply _.
  - apply keeps_bind; [apply _ | apply fetch_same_cells |].
    intros p. destruct (getResponseCode p =? 200); [apply keeps_ret; apply _ | apply IH].
Qed.

Lemma extract_same_cells html : keeps same_cells (extract html).
Proof.
  unfold extract.
  destruct (regex1_exec html) as [m|]; [| apply keeps_throw; apply _].
  destruct (regex2_exec m); [apply keeps_ret | apply keeps_throw]; apply _.
Qed.

Lemma lookupQuote_same_cells symbol url : keeps same_cells (lookupQuote env symbol url).
Proof.
  unfold lookupQuote. apply keeps_bind; [apply _ | |].
  - apply keeps_try_catch; [apply _ | | intros e; apply keeps_ret; apply _].
    apply keeps_fmap; [apply _ |]. unfold load_page.
    apply keeps_bind; [apply _ | apply attempts_same_cells |].
    intros [p|]; [| apply keeps_throw; apply _].
    destruct (negb _); [apply keeps_throw | apply keeps_ret]; apply _.
  - intros [page|]; [apply extract_same_cells | apply keeps_ret; apply _].
Qed.

Lemma lookup_same_cells symbol exchange : keeps same_cells (lookup env symbol exchange).
Proof.
  unfold lookup. apply keeps_bind; [apply _ | | intros url; apply lookupQuote_same_cells].
  intros st. reflexivity.
Qed.

End Lookups.

(** ** The sheet services *)

Lemma getRange_rows_some numRows n st :
  rows_of numRows = Some n -> getRange_rows numRows st = (Normal n, st).
Proof.
  unfold rows_of, getRange_rows. destruct numRows as [z|]; [| discriminate].
  destruct (1 <=? z); [| discriminate]. intros [= <-]. reflexivity.
Qed.

Lemma getRange_rows_none numRows st :
  rows_of numRows = None -> exists e, getRange_rows numRows st = (Throw e, st).
Proof.
  unfold rows_of, getRange_rows. destruct numRows as [z|]; [| eauto].
  destruct (1 <=? z); [discriminate | eauto].
Qed.

Lemma getValues_some r c numRows n st :
  rows_of numRows = Some n ->
  getValues r c numRows st =
  (Normal ((fun i => read_cell (r + i) c st) <$> seq 0 n),
   log (EGetValues r c n) st).
Proof.
  intros H. unfold getValues. rewrite (bind_normal _ _ _ _ _ (getRange_rows_some _ _ st H)).
  reflexivity.
Qed.

Lemma getValues_none r c numRows st :
  rows_of numRows = None -> exists e, getValues r c numRows st = (Throw e, st).
Proof.
  intros H. destruct (getRange_rows_none _ st H) as [e He]. exists e.
  unfold getValues. rewrite (bind_throw _ _ _ _ _ He). reflexivity.
Qed.

Lemma write_column_cells vs : forall r c st r' c',
  cells (write_column r c vs st) !! (r', c') =
  if bool_decide (c' = c /\ (r <= r' < r + length vs)%nat)
  then vs !! (r' - r)%nat
  else cells st !! (r', c').
Proof.
  induction vs as [|v vs IH]; intros r c st r' c'; simpl.
  - rewrite bool_decide_eq_false_2; [reflexivity | lia].
  - rewrite IH. simpl.
    destruct (decide (c' = c /\ (r <= r' < r + S (length vs))%nat)) as [[-> Hr]|Hn].
    + rewrite (bool_decide_eq_true_2 (c = c /\ (r <= r' < r + S (length vs))%nat))
        by (split; [reflexivity | lia]).
      destruct (decide (r' = r)) as [->|Hne].
      * rewrite bool_decide_eq_false_2 by lia.
        rewrite lookup_insert_eq. replace (r - r)%nat with 0%nat by lia. reflexivity.
      * rewrite bool_decide_eq_true_2 by (split; [reflexivity | lia]).
        replace (r' - r)%nat with (S (r' - S r)) by lia. reflexivity.
    + rewrite (bool_decide_eq_false_2 _ Hn).
      rewrite bool_decide_eq_false_2 by (intros [-> ?]; apply Hn; split; [reflexivity | lia]).
      apply lookup_insert_ne. intros [= -> ->]. apply Hn. split; [reflexivity | lia].
Qed.

Lemma mapM_slot_value_rows (qs : list number) :
  mapM slot_value (row <$> qs) = Some (VNumber <$> qs).
Proof.
  induction qs as [|q qs IH]; [reflexivity |].
  cbn. rewrite IH. reflexivity.
Qed.

Lemma setValues_run r c numRows (qs : list number) st :
  rows_of numRows = Some (length qs) ->
  setValues r c numRows (row <$> qs) st =
  (Normal tt,
   log (ESetValues r c (length qs) (VNumber <$> qs))
       (write_column r c (VNumber <$> qs) st)).
Proof.
  intros Hrows. unfold setValues.
  rewrite (bind_normal _ _ _ _ _ (getRange_rows_some _ _ st Hrows)).
  rewrite mapM_slot_value_rows.
  rewrite bool_decide_eq_true_2 by (rewrite length_fmap; reflexivity).
  reflexivity.
Qed.

(** ** SUBSECTION D2 *)

Section Updating.
Variable env : Env.

Lemma update_loop_run (prices : list slot) : forall count i st,
  exists st',
    for_from i count (update_body env prices) tt st = (Normal tt, st') /\
    forall r c,
      cells st' !! (r, c) =
      if bool_decide (c = 7%nat /\ (2 + i <= r < 2 + i + count)%nat)
      then
        let s := default undefined (prices !! (r - 2)%nat) in
        if differs_from_minus_one env s
        then Some (VNumber (parseFloat_slot env s))
        else cells st !! (r, c)
      else cells st !! (r, c).
Proof.
  induction count as [|count IH]; intros i st.
  - exists st. split; [reflexivity |]. intros r c.
    rewrite bool_decide_eq_false_2; [reflexivity | lia].
  - assert (Hb : exists st1, update_body env prices i tt st = (Normal tt, st1) /\
        forall r c, cells st1 !! (r, c) =
          if bool_decide (c = 7%nat /\ r = (2 + i)%nat)
          then let s := default undefined (prices !! i) in
               if differs_from_minus_one env s
               then Some (VNumber (parseFloat_slot env s))
               else cells st !! (r, c)
          else cells st !! (r, c)).
    { unfold update_body.
      destruct (differs_from_minus_one env (default undefined (prices !! i))) eqn:Hd.
      - eexists. split; [reflexivity |]. intros r c. simpl.
        case_bool_decide as Hrc.
        + destruct Hrc as [-> ->]. apply lookup_insert_eq.
        + apply lookup_insert_ne. intros [= <- <-]. apply Hrc. split; reflexivity.
      - exists st. split; [reflexivity |]. intros r c. case_bool_decide; reflexivity. }
    destruct Hb as (st1 & Hrun1 & Hcells1).
    destruct (IH (S i) st1) as (st' & Hrun & Hcells).
    exists st'. split.
    + cbn [for_from]. rewrite (bind_normal _ _ _ _ _ Hrun1). exact Hrun.
    + intros r c. rewrite Hcells, Hcells1. cbv zeta.
      destruct (decide (c = 7%nat /\ (2 + i <= r < 2 + i + S count)%nat)) as [[-> Hr]|Hn].
      * rewrite (bool_decide_eq_true_2 (7%nat = 7%nat /\ (2 + i <= r < 2 + i + S count)%nat))
          by (split; [reflexivity | lia]).
        destruct (decide (r = (2 + i)%nat)) as [->|Hne].
        -- rewrite bool_decide_eq_false_2 by lia.
           rewrite bool_decide_eq_true_2 by (split; reflexivity).
           replace (2 + i - 2)%nat with i by lia. reflexivity.
        -- rewrite bool_decide_eq_true_2 by (split; [reflexivity | lia]).
           rewrite (bool_decide_eq_false_2 (7%nat = 7%nat /\ r = (2 + i)%nat)) by (intros [_ ?]; lia).
           reflexivity.
      * rewrite (bool_decide_eq_false_2 _ Hn).
        rewrite bool_decide_eq_false_2
          by (intros [-> ?]; apply Hn; split; [reflexivity | lia]).
        rewrite bool_decide_eq_false_2
          by (intros [-> ->]; apply Hn; split; [reflexivity | lia]).
        reflexivity.
Qed.

(** What SUBSECTION D2 leaves in the sheet when the array holds one
    quote per row of the range. *)
Lemma updateValues_run lastrow (qs : list number) st :
  rows_of (Z.pred <$> lastrow) = Some (length qs) ->
  exists st',
    updateValues env lastrow (row <$> qs) st = (Normal tt, st') /\
    (forall k q, qs !! k = Some q ->
       new_price st' k = Some (VNumber q) /\
       buffered_price st' k =
         if differs_from_minus_one env (row q)
         then Some (VNumber (parseFloat_slot env (row q)))
         else buffered_price st k) /\
    (forall r c, (c <> 6 /\ c <> 7)%nat \/ (r < 2)%nat \/ (2 + length qs <= r)%nat ->
       cells st' !! (r, c) = cells st !! (r, c)).
Proof.
  intros Hrows. unfold updateValues.
  pose proof (setValues_run 2 6 (Z.pred <$> lastrow) qs st Hrows) as Hset.
  set (st1 := log (ESetValues 2 6 (length qs) (VNumber <$> qs))
                  (write_column 2 6 (VNumber <$> qs) st)) in *.
  destruct (update_loop_run (row <$> qs) (length (row <$> qs)) 0%nat st1)
    as (st' & Hrun & Hcells).
  exists st'. split; [| split].
  - rewrite (bind_normal _ _ _ _ _ Hset). exact Hrun.
  - intros k q Hk. pose proof (lookup_lt_Some _ _ _ Hk) as Hlt.
    unfold new_price, buffered_price. rewrite !Hcells. cbv zeta.
    rewrite length_fmap. split.
    + rewrite bool_decide_eq_false_2 by (intros [? _]; lia).
      subst st1. cbn [cells log]. rewrite write_column_cells.
      rewrite bool_decide_eq_true_2 by (rewrite length_fmap; split; [reflexivity | lia]).
      replace (2 + k - 2)%nat with k by lia.
      rewrite list_lookup_fmap, Hk. reflexivity.
    + rewrite bool_decide_eq_true_2 by (split; [reflexivity | lia]).
      replace (2 + k - 2)%nat with k by lia.
      rewrite list_lookup_fmap, Hk.
      change (default undefined (row <$> Some q)) with (row q).
      destruct (differs_from_minus_one env (row q)); [reflexivity |].
      subst st1. cbn [cells log]. rewrite write_column_cells.
      rewrite bool_decide_eq_false_2 by (intros [? _]; lia). reflexivity.
  - intros r c Hout. rewrite Hcells. rewrite length_fmap.
    rewrite bool_decide_eq_false_2 by lia.
    subst st1. cbn [cells log]. rewrite write_column_cells, length_fmap.
      rewrite bool_decide_eq_false_2 by lia. reflexivity.
Qed.

End Updating.

(** ** SECTION A to SUBSECTION D1 *)


Section Reading.
Variable env : Env.

Lemma lookup_body_run symbols exchange i prices st :
  lookup_body env symbols exchange i prices st =
  match lookup env (String_element env symbols i)
               (String_element env exchange i) st with
  | (Normal q, st') => (Normal (<[i := row q]> prices), st')
  | (Throw e, st') => (Throw e, st')
  end.
Proof. reflexivity. Qed.

(** The loop that assigns [prices[i]] in place does what looking the
    rows up in order does, and puts the quotes in the slots [i],
    [i + 1], ... *)
Lemma for_from_lookup symbols exchange : forall count i prices st,
  (i + count <= length prices)%nat ->
  for_from i count (lookup_body env symbols exchange) prices st =
  (qs ← lookup_in_order env (rows_from env symbols exchange i count);
   mret (take i prices ++ (row <$> qs) ++ drop (i + count) prices)) st.
Proof.
  induction count as [|count IH]; intros i prices st Hlen.
  - cbn [for_from rows_from seq fmap list_fmap lookup_in_order].
    rewrite bind_run, !ret_run, Nat.add_0_r. cbn [fmap list_fmap app]. rewrite take_drop. reflexivity.
  - cbn [for_from rows_from seq fmap list_fmap lookup_in_order].
    fold (rows_from env symbols exchange (S i) count).
    rewrite !bind_run, lookup_body_run.
    destruct (lookup env (String_element env symbols i)
                (String_element env exchange i) st) as [[q|e] st1] eqn:Hq;
      [| reflexivity].
    rewrite IH by (rewrite length_insert; lia).
    rewrite !bind_run.
    destruct (lookup_in_order env (rows_from env symbols exchange (S i) count) st1)
      as [[qs|e] st2]; [| reflexivity].
    rewrite !ret_run. f_equal. f_equal.
    rewrite drop_insert_lt by lia.
    rewrite (take_S_r _ _ (row q)) by (apply list_lookup_insert_eq; lia).
    rewrite take_insert_ge by lia.
    rewrite <- app_assoc. cbn.
    replace (i + S count)%nat with (S (i + count)) by lia. reflexivity.
Qed.

Lemma rows_from_portfolio st n :
  rows_from env ((fun i => read_cell (2 + i) 1 (after_timestamp env st)) <$> seq 0 n)
            ((fun i => read_cell (2 + i) 4
                         (log (EGetValues 2 1 n) (after_timestamp env st))) <$> seq 0 n)
            0 n
  = portfolio env st n.
Proof.
  unfold rows_from, portfolio. apply list_fmap_ext.
  intros i j Hj. apply lookup_seq in Hj as [-> Hlt]. cbn [Nat.add] in *.
  unfold String_element. rewrite !list_lookup_fmap.
  rewrite !lookup_seq_lt by lia. cbn.
  unfold read_cell. cbn.
  rewrite !lookup_insert_ne by (intros [= ? ?]; lia). reflexivity.
Qed.

(** [lookupPrices], unfolded: it stops after the timestamp when the
    range is refused; otherwise it is the in-order lookup of the
    portfolio from [after_reading]. *)
Lemma lookupPrices_unfold st :
  lookupPrices env st =
  (symbols ← getValues 2 1 (Z.pred <$> lastrow_of env st);
   exchange ← getValues 2 4 (Z.pred <$> lastrow_of env st);
   prices ← for_loop (length symbols) (lookup_body env symbols exchange)
                     (replicate (length symbols) undefined);
   mret (lastrow_of env st, prices)) (after_timestamp env st).
Proof. reflexivity. Qed.

Lemma lookupPrices_run st :
  match rows_of (Z.pred <$> lastrow_of env st) with
  | None => exists e, lookupPrices env st = (Throw e, after_timestamp env st)
  | Some n =>
      lookupPrices env st =
      (qs ← lookup_in_order env (portfolio env st n);
       mret (lastrow_of env st, row <$> qs)) (after_reading env st n)
  end.
Proof.
  rewrite lookupPrices_unfold.
  destruct (rows_of (Z.pred <$> lastrow_of env st)) as [n|] eqn:Hrows.
  - rewrite (bind_normal _ _ _ _ _ (getValues_some 2 1 _ n _ Hrows)).
    rewrite (bind_normal _ _ _ _ _ (getValues_some 2 4 _ n _ Hrows)).
    rewrite !length_fmap, !length_seq.
    unfold for_loop. rewrite bind_run.
    rewrite for_from_lookup by (rewrite length_replicate; lia).
    rewrite rows_from_portfolio.
    change (log (EGetValues 2 4 n) (log (EGetValues 2 1 n) (after_timestamp env st)))
      with (after_reading env st n).
    rewrite !bind_run.
    destruct (lookup_in_order env (portfolio env st n) (after_reading env st n))
      as [[qs|e] st1]; [| reflexivity].
    rewrite !ret_run. cbn [take app Nat.add].
    rewrite drop_ge by (rewrite length_replicate; lia).
    rewrite app_nil_r. reflexivity.
  - destruct (getValues_none 2 1 _ (after_timestamp env st) Hrows) as [e He].
    exists e. rewrite (bind_throw _ _ _ _ _ He). reflexivity.
Qed.

End Reading.

(** ** What [parseFloat] reads from the match of regex 2 *)

Lemma every_app p a b : every p (a +:+ b) = every p a && every p b.
Proof.
  induction a as [|c a IH]; [reflexivity |].
  simpl. rewrite IH, andb_assoc. reflexivity.
Qed.

Lemma span_every p s : every p (fst (span p s)) = true.
Proof.
  induction s as [|c s IH]; [reflexivity |].
  cbn. destruct (p c) eqn:Hc; [| reflexivity].
  destruct (span p s) as [run rest]. cbn in *. rewrite Hc, IH. reflexivity.
Qed.

Lemma strip_prefix_every p pat : forall s rest,
  strip_prefix pat s = Some rest -> every p s = true -> every p rest = true.
Proof.
  induction pat as [|a pat IH]; intros s rest.
  - destruct s; intros [= <-]; trivial.
  - destruct s as [|b s]; [discriminate |]. cbn.
    case_bool_decide; [| discriminate].
    intros Hs Hp. apply andb_prop in Hp as [_ Hp]. eauto.
Qed.

Lemma replace_every p pat s :
  every p s = true -> every p (replace pat "" s) = true.
Proof.
  induction s as [|c s IH]; intros Hs.
  - cbn. destruct (strip_prefix pat "") as [rest|] eqn:Hp; [| reflexivity].
    cbn. eapply strip_prefix_every; eauto.
  - cbn [replace]. destruct (strip_prefix pat (String c s)) as [rest|] eqn:Hp.
    + cbn. eapply strip_prefix_every; eauto.
    + cbn in *. apply andb_prop in Hs as [Hc Hs]. rewrite Hc, IH; trivial.
Qed.

Lemma trim_start_every p s : every p s = true -> every p (trim_start s) = true.
Proof.
  induction s as [|c s IH]; [trivial |]. intros Hs. cbn [trim_start].
  destruct (is_white_space c); [| exact Hs].
  cbn in Hs. apply andb_prop in Hs as [_ Hs]. auto.
Qed.

Lemma digit_value_nonneg c : is_digit c = true -> 0 <= digit_value c.
Proof.
  unfold is_digit, digit_value. intros H. apply andb_prop in H as [H _].
  apply Nat.leb_le in H. lia.
Qed.

Lemma digits_value_from_nonneg ds : forall acc,
  0 <= acc -> every is_digit ds = true -> 0 <= digits_value_from acc ds.
Proof.
  induction ds as [|c ds IH]; intros acc Hacc Hds; cbn in *; [exact Hacc |].
  apply andb_prop in Hds as [Hc Hds]. apply IH; [| exact Hds].
  pose proof (digit_value_nonneg c Hc). lia.
Qed.

Lemma Qred_nonneg q : 0 <= Qnum q -> 0 <= Qnum (Qred q).
Proof.
  intros H. pose proof (Qred_correct q) as E. unfold Qeq in E.
  pose proof (Pos2Z.is_pos (Qden q)). pose proof (Pos2Z.is_pos (Qden (Qred q))).
  nia.
Qed.

Lemma scale10_nonneg m e : 0 <= m -> 0 <= Qnum (scale10 m e).
Proof.
  intros Hm. unfold scale10. destruct (0 <=? e) eqn:He; apply Qred_nonneg; cbn.
  - apply Z.leb_le in He. apply Z.mul_nonneg_nonneg; [exact Hm |].
    apply Z.pow_nonneg. lia.
  - exact Hm.
Qed.

Lemma unsigned_literal_nonneg s : nonnegative (unsigned_literal s).
Proof.
  unfold unsigned_literal, read_unsigned.
  destruct (strip_prefix "Infinity" s); [reflexivity |].
  pose proof (span_every is_digit s) as Hip.
  destruct (span is_digit s) as [ip r1]. cbn in Hip.
  assert (Hfp : forall r, every is_digit (fst (span is_digit r)) = true)
    by (intros r; apply span_every).
  destruct (match r1 with
            | String c r => if bool_decide (c = "."%char) then span is_digit r
                            else (EmptyString, r1)
            | EmptyString => (EmptyString, r1)
            end) as [fp r2] eqn:Hsplit.
  assert (Hfp' : every is_digit fp = true).
  { destruct r1 as [|c r]; [injection Hsplit as <- _; reflexivity |].
    destruct (bool_decide (c = "."%char)).
    - specialize (Hfp r). rewrite Hsplit in Hfp. exact Hfp.
    - injection Hsplit as <- _. reflexivity. }
  destruct (bool_decide (ip = "") && bool_decide (fp = "")); [exact I |].
  destruct (exponent_part r2) as [e rest].
  cbn. apply scale10_nonneg. apply digits_value_from_nonneg; [lia |].
  rewrite every_app, Hip, Hfp'. reflexivity.
Qed.

Lemma parseFloat_nonneg s : every not_minus s = true -> nonnegative (parseFloat s).
Proof.
  intros Hs. apply trim_start_every in Hs. unfold parseFloat.
  destruct (trim_start s) as [|c rest]; [exact I |].
  cbn in Hs. apply andb_prop in Hs as [Hc _]. unfold not_minus in Hc.
  destruct (bool_decide (c = "-"%char)); [discriminate |].
  destruct (bool_decide (c = "+"%char)); apply unsigned_literal_nonneg.
Qed.

Lemma is_numeric_not_minus c : is_numeric c = true -> not_minus c = true.
Proof.
  intros H. unfold not_minus. destruct (decide (c = "-"%char)) as [->|Hne].
  - vm_compute in H. discriminate H.
  - rewrite bool_decide_eq_false_2 by exact Hne. reflexivity.
Qed.

Lemma every_impl (p q : ascii -> bool) s :
  (forall c, p c = true -> q c = true) -> every p s = true -> every q s = true.
Proof.
  intros Hpq. induction s as [|c s IH]; [trivial |]. cbn. intros H.
  apply andb_prop in H as [Hc Hs]. rewrite (Hpq c Hc), IH; trivial.
Qed.

Lemma regex2_at_not_minus s m : regex2_at s = Some m -> every not_minus m = true.
Proof.
  unfold regex2_at. destruct s as [|c s1]; [discriminate |].
  destruct (bool_decide (c = ">"%char)); [| discriminate].
  pose proof (span_every is_numeric s1) as Hrun.
  destruct (span is_numeric s1) as [run rest]. cbn in Hrun.
  destruct rest as [|d rest]; [discriminate |].
  destruct (bool_decide (d = "<"%char)); [| discriminate].
  intros [= <-]. rewrite !every_app.
  rewrite (every_impl _ _ _ is_numeric_not_minus Hrun). reflexivity.
Qed.

Lemma regex2_exec_not_minus s : forall m,
  regex2_exec s = Some m -> every not_minus m = true.
Proof.
  induction s as [|c s IH]; intros m; cbn [regex2_exec].
  - destruct (regex2_at "") eqn:H; [| discriminate].
    intros [= <-]. eapply regex2_at_not_minus; eauto.
  - destruct (regex2_at (String c s)) eqn:H.
    + intros [= <-]. eapply regex2_at_not_minus; eauto.
    + apply IH.
Qed.

(** [extract] does not touch the state, and never returns [-1]. *)
Lemma extract_run html :
  exists r, (forall st, extract html st = (r, st)) /\
            forall q, r = Normal q -> nonnegative q.
Proof.
  unfold extract. destruct (regex1_exec html) as [m1|].
  - destruct (regex2_exec m1) as [m2|] eqn:H2.
    + eexists. split; [intros st; reflexivity |].
      intros q [= <-]. apply parseFloat_nonneg.
      do 3 apply replace_every. eapply regex2_exec_not_minus; eauto.
    + eexists. split; [intros st; reflexivity | discriminate].
  - eexists. split; [intros st; reflexivity | discriminate].
Qed.

Lemma nonnegative_not_minus_one q : nonnegative q -> q <> minus_one.
Proof. intros H ->. cbn in H. lia. Qed.

Ltac small_index j :=
  destruct j as [|[|[|j]]]; try lia.

Section Fetching.
Variable env : Env.

Lemma fetch_run url st :
  UrlFetchApp_fetch env url st =
  (match network env (fetched st) url with
   | Responds page => Normal page
   | Fails msg => Throw (Exception msg)
   end, bump url st).
Proof.
  unfold UrlFetchApp_fetch. rewrite !bind_run. cbn [gets modify].
  destruct (network env (fetched st) url); reflexivity.
Qed.

(** [lookupQuote], unfolded over the three answers of the network. *)
Lemma lookupQuote_run symbol url st :
  lookupQuote env symbol url st =
  match answer env st url 0 with
  | Fails _ => (Normal minus_one, bump url st)
  | Responds p0 =>
      if getResponseCode p0 =? 200
      then extract (getContentText p0) (bump url st)
      else
        match answer env st url 1 with
        | Fails _ => (Normal minus_one, bump url (bump url st))
        | Responds p1 =>
            if getResponseCode p1 =? 200
            then extract (getContentText p1) (bump url (bump url st))
            else
              match answer env st url 2 with
              | Fails _ => (Normal minus_one, bump url (bump url (bump url st)))
              | Responds p2 =>
                  if getResponseCode p2 =? 200
                  then extract (getContentText p2)
                         (bump url (bump url (bump url st)))
                  else (Normal minus_one, bump url (bump url (bump url st)))
              end
        end
  end.
Proof.
  unfold answer. rewrite Nat.add_0_r.
  replace (fetched st + 1)%nat with (fetched (bump url st)) by (cbn; lia).
  replace (fetched st + 2)%nat with (fetched (bump url (bump url st))) by (cbn; lia).
  unfold lookupQuote, try_catch, load_page.
  rewrite bind_run, fmap_run, bind_run. cbn [attempts].
  rewrite bind_run, fetch_run.
  destruct (network env (fetched st) url) as [p0|m0]; [| reflexivity].
  destruct (getResponseCode p0 =? 200) eqn:C0.
  { rewrite ret_run. rewrite C0. cbn [negb]. rewrite ret_run. reflexivity. }
  rewrite bind_run, fetch_run.
  destruct (network env (fetched (bump url st)) url) as [p1|m1]; [| reflexivity].
  destruct (getResponseCode p1 =? 200) eqn:C1.
  { rewrite ret_run. rewrite C1. cbn [negb]. rewrite ret_run. reflexivity. }
  rewrite bind_run, fetch_run.
  destruct (network env (fetched (bump url (bump url st))) url) as [p2|m2];
    [| reflexivity].
  destruct (getResponseCode p2 =? 200) eqn:C2.
  { rewrite ret_run. rewrite C2. cbn [negb]. rewrite ret_run. reflexivity. }
  rewrite ret_run. rewrite C2. reflexivity.
Qed.

Lemma bumps_fetched url k st :
  fetched (Nat.iter k (bump url) st) = (fetched st + k)%nat.
Proof.
  induction k as [|k IH]; simpl; [lia | rewrite IH; lia].
Qed.

Lemma bumps_trace url k st :
  trace (Nat.iter k (bump url) st) = trace st ++ replicate k (EFetch url).
Proof.
  induction k as [|k IH]; simpl.
  - rewrite app_nil_r. reflexivity.
  - rewrite IH, <- app_assoc. f_equal.
    rewrite <- replicate_S_end. reflexivity.
Qed.

(** The attempts [lookupQuote] makes: [k] of them, all but the last
    answered with a status other than 200; the last one decides. *)
Lemma lookupQuote_summary symbol url st :
  exists (k : nat) (r : completion number),
    lookupQuote env symbol url st = (r, Nat.iter k (bump url) st) /\
    (1 <= k <= 3)%nat /\
    (forall j, (j < k - 1)%nat ->
       is_200 (answer env st url j) = false /\
       is_failure (answer env st url j) = false) /\
    ((is_200 (answer env st url (k - 1)) = true /\
      is_failure (answer env st url (k - 1)) = false /\
      r <> Normal minus_one)
     \/
     (is_200 (answer env st url (k - 1)) = false /\
      r = Normal minus_one /\
      (k = 3%nat \/ is_failure (answer env st url (k - 1)) = true))).
Proof.
  rewrite lookupQuote_run.
  assert (Hex : forall html st1, exists r,
             extract html st1 = (r, st1) /\ r <> Normal minus_one).
  { intros html st1. destruct (extract_run html) as (r & Hr & Hq).
    exists r. split; [apply Hr |]. intros ->.
    exact (nonnegative_not_minus_one _ (Hq _ eq_refl) eq_refl). }
  destruct (answer env st url 0) as [p0|m0] eqn:E0;
    [destruct (getResponseCode p0 =? 200) eqn:C0 |].
  - destruct (Hex (getContentText p0) (bump url st)) as (r & -> & Hr).
    exists 1%nat, r. simpl Nat.iter; simpl Nat.sub. rewrite E0. cbn [is_200 is_failure].
    repeat split; try lia; auto.
  - destruct (answer env st url 1) as [p1|m1] eqn:E1;
      [destruct (getResponseCode p1 =? 200) eqn:C1 |].
    + destruct (Hex (getContentText p1) (bump url (bump url st))) as (r & -> & Hr).
      exists 2%nat, r. simpl Nat.iter; simpl Nat.sub. rewrite E1. cbn [is_200 is_failure].
      repeat split; try lia; auto;
        (small_index j; rewrite E0; cbn [is_200 is_failure]; auto).
    + destruct (answer env st url 2) as [p2|m2] eqn:E2;
        [destruct (getResponseCode p2 =? 200) eqn:C2 |].
      * destruct (Hex (getContentText p2) (bump url (bump url (bump url st))))
          as (r & -> & Hr).
        exists 3%nat, r. simpl Nat.iter; simpl Nat.sub. rewrite E2. cbn [is_200 is_failure].
        repeat split; try lia; auto;
          (small_index j; [rewrite E0 | rewrite E1]; cbn [is_200 is_failure]; auto).
      * exists 3%nat, (Normal minus_one). simpl Nat.iter; simpl Nat.sub.
        rewrite E2. cbn [is_200 is_failure].
        repeat split; try lia; auto;
          (small_index j; [rewrite E0 | rewrite E1]; cbn [is_200 is_failure]; auto).
      * exists 3%nat, (Normal minus_one). simpl Nat.iter; simpl Nat.sub.
        rewrite E2. cbn [is_200 is_failure].
        repeat split; try lia; auto;
          (small_index j; [rewrite E0 | rewrite E1]; cbn [is_200 is_failure]; auto).
    + exists 2%nat, (Normal minus_one). simpl Nat.iter; simpl Nat.sub.
      rewrite E1. cbn [is_200 is_failure].
      repeat split; try lia; auto;
        (small_index j; rewrite E0; cbn [is_200 is_failure]; auto).
  - exists 1%nat, (Normal minus_one). simpl Nat.iter; simpl Nat.sub.
    rewrite E0. cbn [is_200 is_failure].
    repeat split; try lia; auto.
Qed.

End Fetching.

(** C3.  [lookupQuote] makes between one and three fetches, all of the
    same URL and one after the other; an attempt answered with status
    200 is the last one; fewer than three attempts are made only when
    the last one was answered with status 200 or raised; the result is
    the failure sentinel [-1] exactly when no attempt made was answered
    with status 200 or an attempt raised; and against answers that are
    all status 500 it makes exactly three attempts and returns [-1]. *)
Theorem lookupQuote_attempts (env : Env) (symbol url : string) (st : State) :
  let st' := exec (lookupQuote env symbol url) st in
  let k := (fetched st' - fetched st)%nat in
  (1 <= k <= 3)%nat /\
  trace st' = trace st ++ replicate k (EFetch url) /\
  (forall j, (j < k)%nat -> is_200 (answer env st url j) = true -> k = S j) /\
  ((k < 3)%nat ->
     is_200 (answer env st url (k - 1)) = true \/
     is_failure (answer env st url (k - 1)) = true) /\
  (outcome (lookupQuote env symbol url) st = Normal minus_one <->
     (forall j, (j < k)%nat -> is_200 (answer env st url j) = false) \/
     (exists j, (j < k)%nat /\ is_failure (answer env st url j) = true)) /\
  ((forall j, (j < 3)%nat ->
      exists body, answer env st url j = Responds (mkResponse 500 body)) ->
   k = 3%nat /\ outcome (lookupQuote env symbol url) st = Normal minus_one).
Proof.
  destruct (lookupQuote_summary env symbol url st) as (k & r & Hrun & Hk & Hbefore & Hlast).
  unfold exec, outcome. rewrite Hrun. cbn [fst snd].
  rewrite bumps_fetched, bumps_trace.
  replace (fetched st + k - fetched st)%nat with k by lia. cbv zeta.
  assert (Hsplit : forall j, (j < k)%nat -> (j < k - 1)%nat \/ j = (k - 1)%nat) by lia.
  split; [exact Hk |]. split; [reflexivity |]. split; [| split; [| split]].
  - intros j Hj H200. destruct (Hsplit j Hj) as [Hlt| ->]; [| lia].
    destruct (Hbefore j Hlt) as [H _]. congruence.
  - intros Hk3. destruct Hlast as [(H & _)|(_ & _ & [->|H])]; [auto | lia | auto].
  - split.
    + intros ->. destruct Hlast as [(_ & _ & H)|(H & _)]; [congruence |].
      left. intros j Hj. destruct (Hsplit j Hj) as [Hlt| ->]; [apply Hbefore, Hlt | exact H].
    + intros [Hall|(j & Hj & Hf)].
      * destruct Hlast as [(H & _)|(_ & H & _)]; [| exact H].
        rewrite Hall in H by lia. discriminate H.
      * destruct (Hsplit j Hj) as [Hlt| ->].
        -- destruct (Hbefore j Hlt) as [_ H]. congruence.
        -- destruct Hlast as [(_ & H & _)|(_ & H & _)]; [congruence | exact H].
  - intros H500.
    assert (H5 : forall j, (j < 3)%nat ->
              is_200 (answer env st url j) = false /\
              is_failure (answer env st url j) = false).
    { intros j Hj. destruct (H500 j Hj) as [b ->]. split; reflexivity. }
    destruct Hlast as [(H & _)|(_ & Hr & [->|H])].
    + destruct (H5 (k - 1)%nat ltac:(lia)) as [H' _]. congruence.
    + split; [reflexivity | exact Hr].
    + destruct (H5 (k - 1)%nat ltac:(lia)) as [_ H']. congruence.
Qed.

(** ** Whole runs *)

Section Runs.
Variable env : Env.

Lemma lookup_in_order_same_cells rows : keeps same_cells (lookup_in_order env rows).
Proof.
  induction rows as [|[symbol exchange] rows IH]; cbn [lookup_in_order].
  - apply keeps_ret; apply _.
  - apply keeps_bind; [apply _ | apply lookup_same_cells |]. intros q.
    apply keeps_bind; [apply _ | exact IH |]. intros qs. apply keeps_ret; apply _.
Qed.

Lemma lookup_in_order_length rows : forall st qs st',
  lookup_in_order env rows st = (Normal qs, st') -> length qs = length rows.
Proof.
  induction rows as [|[symbol exchange] rows IH]; intros st qs st'; cbn [lookup_in_order].
  - rewrite ret_run. intros [= <- _]. reflexivity.
  - intros H. apply bind_inv in H as (q & st1 & _ & H).
    apply bind_inv in H as (qs' & st2 & H & Hret).
    rewrite ret_run in Hret. injection Hret as <- _.
    cbn. f_equal. eapply IH; eauto.
Qed.

(** A run whose lookups all return: the array holds their results in
    the order of the rows, and SUBSECTION D2 writes it row by row. *)
Lemma run_normal st lastrow prices st1 :
  lookupPrices env st = (Normal (lastrow, prices), st1) ->
  exists qs : list number,
    prices = row <$> qs /\
    rows_of (Z.pred <$> lastrow) = Some (length qs) /\
    lookup_in_order env (portfolio env st (length qs))
      (after_reading env st (length qs)) = (Normal qs, st1) /\
    exists st2,
      updateMasterList env st = (Normal tt, st2) /\
      (forall k q, qs !! k = Some q ->
       new_price st2 k = Some (VNumber q) /\
       buffered_price st2 k =
         if differs_from_minus_one env (row q)
         then Some (VNumber (parseFloat_slot env (row q)))
         else buffered_price st k) /\
      (forall r c,
         (c <> 6 /\ c <> 7)%nat \/ (r < 2)%nat \/ (2 + length qs <= r)%nat ->
         cells st2 !! (r, c) =
         <[(2, 11)%nat := VText (clock env (ticks st))]> (cells st) !! (r, c)).
Proof.
  intros Hrun. pose proof (lookupPrices_run env st) as H.
  destruct (rows_of (Z.pred <$> lastrow_of env st)) as [n|] eqn:Hrows.
  2:{ destruct H as [e He]. congruence. }
  rewrite Hrun in H. symmetry in H.
  apply bind_inv in H as (qs & st1' & Hqs & Hret).
  rewrite ret_run in Hret. injection Hret as <- <- ->.
  assert (Hn : length qs = n).
  { rewrite (lookup_in_order_length _ _ _ _ Hqs). unfold portfolio.
    rewrite length_fmap, length_seq. reflexivity. }
  subst n.
  assert (Hcells1 : cells st1 =
            <[(2, 11)%nat := VText (clock env (ticks st))]> (cells st)).
  { pose proof (lookup_in_order_same_cells (portfolio env st (length qs))
                  (after_reading env st (length qs))) as Hk.
    rewrite Hqs in Hk. exact Hk. }
  exists qs. split; [reflexivity |]. split; [exact Hrows |]. split; [exact Hqs |].
  destruct (updateValues_run env (lastrow_of env st) qs st1 Hrows)
    as (st2 & Hupd & Hrowsok & Hother).
  exists st2. split; [| split].
  - unfold updateMasterList. rewrite bind_run, Hrun. exact Hupd.
  - intros k q Hk. destruct (Hrowsok k q Hk) as [Hnew Hbuf].
    split; [exact Hnew |]. rewrite Hbuf.
  destruct (differs_from_minus_one env (row q)); [reflexivity |].
  unfold buffered_price. rewrite Hcells1.
    apply lookup_insert_ne. intros [= ? ?]; lia.
  - intros r c Hout. rewrite (Hother r c Hout), Hcells1. reflexivity.
Qed.

(** A run in which a lookup throws, or the range is refused: nothing
    but the timestamp is written. *)
Lemma run_abort st e st1 :
  lookupPrices env st = (Throw e, st1) ->
  updateMasterList env st = (Throw e, st1) /\
  cells st1 = <[(2, 11)%nat := VText (clock env (ticks st))]> (cells st).
Proof.
  intros Hrun. split.
  - unfold updateMasterList. rewrite (bind_throw _ _ _ _ _ Hrun). reflexivity.
  - pose proof (lookupPrices_run env st) as H.
    destruct (rows_of (Z.pred <$> lastrow_of env st)) as [n|].
    + pose proof (lookup_in_order_same_cells (portfolio env st n)
                    (after_reading env st n)) as Hk.
      rewrite Hrun, bind_run in H.
      destruct (lookup_in_order env (portfolio env st n) (after_reading env st n))
        as [[qs|e'] st'] eqn:Hq.
      * rewrite ret_run in H. discriminate H.
      * injection H as _ ->. exact Hk.
    + destruct H as [e' He']. rewrite Hrun in He'. injection He' as _ ->.
      reflexivity.
Qed.

End Runs.

(** In a run whose lookups all return, a row whose lookup returned the
    failure sentinel [-1] keeps its [buffered_price] cell exactly as it
    was before the run, and its [new_price] cell receives [-1]; the run
    ends normally. *)
Lemma failed_row_keeps_buffered (env : Env) (st st1 : State)
    (lastrow : option Z) (prices : list slot) (k : nat) :
  lookupPrices env st = (Normal (lastrow, prices), st1) ->
  prices !! k = Some (row minus_one) ->
  outcome (updateMasterList env) st = Normal tt /\
  buffered_price (exec (updateMasterList env) st) k = buffered_price st k /\
  new_price (exec (updateMasterList env) st) k = Some (VNumber minus_one).
Proof.
  intros Hrun Hk.
  destruct (run_normal env st lastrow prices st1 Hrun)
    as (qs & -> & _ & _ & st2 & Hupd & Hrows & _).
  unfold outcome, exec. rewrite Hupd. cbn [fst snd].
  rewrite list_lookup_fmap in Hk.
  destruct (qs !! k) as [q|] eqn:Hq; [| discriminate].
  injection Hk as ->. destruct (Hrows k minus_one Hq) as [Hnew Hbuf].
  split; [reflexivity |]. split; [| exact Hnew].
  rewrite Hbuf. reflexivity.
Qed.

(** In a run whose lookups all return, a row whose lookup returned a
    number [v] with [v >= 0] has [v] in its [buffered_price] cell and in
    its [new_price] cell after the run.  The buffered value goes
    through [String(v)], so the text the environment gives for [v] has
    to read back as [v], as the language guarantees. *)
Lemma successful_row_updates_both (env : Env) (st st1 : State)
    (lastrow : option Z) (prices : list slot) (k : nat) (v : number) :
  lookupPrices env st = (Normal (lastrow, prices), st1) ->
  prices !! k = Some (row v) ->
  at_least_zero v = true ->
  reads_back env v ->
  buffered_price (exec (updateMasterList env) st) k = Some (VNumber v) /\
  new_price (exec (updateMasterList env) st) k = Some (VNumber v).
Proof.
  intros Hrun Hk Hv [Hnumber Hfloat].
  destruct (run_normal env st lastrow prices st1 Hrun)
    as (qs & -> & _ & _ & st2 & Hupd & Hrows & _).
  unfold exec. rewrite Hupd. cbn [snd].
  rewrite list_lookup_fmap in Hk.
  destruct (qs !! k) as [q|] eqn:Hq; [| discriminate].
  injection Hk as ->. destruct (Hrows k v Hq) as [Hnew Hbuf].
  split; [| exact Hnew]. rewrite Hbuf.
  unfold differs_from_minus_one, parseFloat_slot, String_slot.
  rewrite Hnumber, Hfloat.
  assert (Hne : Number_equal v minus_one = false).
  { destruct v as [| neg | q]; cbn in Hv |- *; try reflexivity.
    destruct (Qeq_bool q (inject_Z (-1))) eqn:E; [| reflexivity].
    apply Qeq_bool_iff in E. apply Qle_bool_iff in Hv. rewrite E in Hv.
    exfalso. apply (Qle_not_lt _ _ Hv). reflexivity. }
  rewrite Hne. reflexivity.
Qed.

(** C5.  After any first run, a second run in which the lookup of
    every row returns [-1] leaves every cell of column G, the
    [buffered_price] column, as the first run left it. *)
Theorem second_failing_run_keeps_buffered (env : Env) (st0 st2 : State)
    (lastrow : option Z) (prices : list slot) :
  let st1 := exec (updateMasterList env) st0 in
  lookupPrices env st1 = (Normal (lastrow, prices), st2) ->
  Forall (fun s => s = row minus_one) prices ->
  forall r, cells (exec (updateMasterList env) st1) !! (r, 7%nat)
            = cells st1 !! (r, 7%nat).
Proof.
  intros st1 Hrun Hall r.
  destruct (run_normal env st1 lastrow prices st2 Hrun)
    as (qs & -> & _ & _ & st3 & Hupd & Hrows & Hother).
  unfold exec at 1. rewrite Hupd. cbn [snd].
  destruct (decide (2 <= r < 2 + length qs)%nat) as [Hin|Hout].
  - destruct (lookup_lt_is_Some_2 qs (r - 2)%nat ltac:(lia)) as [q Hq].
    assert (q = minus_one) as ->.
    { rewrite Forall_forall in Hall.
      specialize (Hall (row q)). rewrite list_elem_of_In in Hall.
      assert (row q ∈ row <$> qs) as Hel
        by (apply list_elem_of_fmap_2, list_elem_of_lookup; eauto).
      rewrite <- list_elem_of_In in Hall.
      specialize (Hall Hel). congruence. }
    destruct (Hrows _ _ Hq) as [_ Hbuf]. unfold buffered_price in Hbuf.
    replace (2 + (r - 2))%nat with r in Hbuf by lia. exact Hbuf.
  - rewrite Hother by lia. apply lookup_insert_ne. intros [= ? ?]; lia.
Qed.

(** In a run whose lookups all return, the array [prices] holds,
    slot by slot, the results of looking the rows of the portfolio up in
    input order, one per row; the [new_price] cell of row [k] receives
    the result of row [k]; its [buffered_price] cell receives
    [parseFloat] of the result of row [k] when the test
    [prices[k] != -1] passes and stays as it was otherwise; and no cell
    of the two columns below the portfolio is written. *)
Lemma results_written_in_row_order (env : Env) (st st1 : State)
    (lastrow : option Z) (prices : list slot) :
  lookupPrices env st = (Normal (lastrow, prices), st1) ->
  exists quotes : list number,
    lastrow = Some (Z.of_nat (length quotes) + 1) /\
    lookup_in_order env (portfolio env st (length quotes))
      (after_reading env st (length quotes)) = (Normal quotes, st1) /\
    prices = row <$> quotes /\
    (forall k q, quotes !! k = Some q ->
       new_price (exec (updateMasterList env) st) k = Some (VNumber q) /\
       buffered_price (exec (updateMasterList env) st) k =
         if differs_from_minus_one env (row q)
         then Some (VNumber (parseFloat_slot env (row q)))
         else buffered_price st k) /\
    (forall k, (length quotes <= k)%nat ->
       new_price (exec (updateMasterList env) st) k = new_price st k /\
       buffered_price (exec (updateMasterList env) st) k = buffered_price st k).
Proof.
  intros Hrun.
  destruct (run_normal env st lastrow prices st1 Hrun)
    as (qs & -> & Hrows & Hqs & st2 & Hupd & Hwritten & Hother).
  exists qs. unfold exec. rewrite Hupd. cbn [snd].
  split; [| split; [exact Hqs | split; [reflexivity | split; [exact Hwritten |]]]].
  - unfold rows_of in Hrows. destruct lastrow as [z|]; [| discriminate]. cbn in Hrows.
    destruct (Z.leb_spec 1 (Z.pred z)); [| discriminate].
    injection Hrows as Hz. f_equal. lia.
  - intros k Hk. unfold new_price, buffered_price.
    rewrite !Hother by lia.
    split; (apply lookup_insert_ne; intros [= ? ?]; lia).
Qed.


(** ** The timestamp *)

#[local] Instance later_preorder : PreOrder later.
Proof.
  split.
  - intros st. split; reflexivity.
  - intros a b c [Hab Eab] [Hbc Ebc]. split; [etransitivity; eassumption | congruence].
Qed.

Lemma keeps_modify (R : State -> State -> Prop) (f : State -> State) :
  (forall st, R st (f st)) -> keeps R (modify f).
Proof. intros H st. apply H. Qed.

Lemma later_log e st : later st (log e st).
Proof. split; [apply prefix_app_r; reflexivity | reflexivity]. Qed.

Lemma write_column_trace vs : forall r c st,
  trace (write_column r c vs st) = trace st.
Proof.
  induction vs as [|v vs IH]; intros r c st; [reflexivity |].
  cbn [write_column]. rewrite IH. reflexivity.
Qed.

Section Timestamp.
Variable env : Env.

Lemma getRange_rows_later numRows : keeps later (getRange_rows numRows).
Proof.
  unfold getRange_rows. destruct numRows as [z|]; [| apply keeps_throw; apply _].
  destruct (1 <=? z); [apply keeps_ret | apply keeps_throw]; apply _.
Qed.

Lemma getValues_later r c numRows : keeps later (getValues r c numRows).
Proof.
  unfold getValues. apply keeps_bind; [apply _ | apply getRange_rows_later |].
  intros n. apply keeps_bind; [apply _ | apply keeps_gets; apply _ |].
  intros vs. apply keeps_bind; [apply _ | | intros []; apply keeps_ret; apply _].
  apply keeps_modify. apply later_log.
Qed.

Lemma lookup_later symbol exchange : keeps later (lookup env symbol exchange).
Proof.
  intros st. unfold lookup. rewrite bind_run.
  assert (Hurl : exists url, URLFromExchange env symbol exchange st =
            (Normal url, mkState (cells st) (fetched st) (S (drawn st))
                                 (ticks st) (trace st))) by (eexists; reflexivity).
  destruct Hurl as [url ->].
  destruct (lookupQuote_summary env symbol url
              (mkState (cells st) (fetched st) (S (drawn st)) (ticks st) (trace st)))
    as (k & r & -> & _).
  cbn [snd]. split.
  - rewrite bumps_trace. cbn [trace]. apply prefix_app_r. reflexivity.
  - unfold LASTRUN. clear. induction k as [|k IH]; [reflexivity | exact IH].
Qed.

Lemma setValue_later r c v : c <> 11%nat -> keeps later (setValue r c v).
Proof.
  intros Hc st. cbn. split.
  - apply prefix_app_r. reflexivity.
  - unfold LASTRUN. cbn. apply lookup_insert_ne. intros [= ? ?]. congruence.
Qed.

Lemma setValues_later r c numRows rows :
  c <> 11%nat -> keeps later (setValues r c numRows rows).
Proof.
  intros Hc. unfold setValues.
  apply keeps_bind; [apply _ | apply getRange_rows_later |]. intros n.
  destruct (mapM slot_value rows) as [vs|]; [| apply keeps_throw; apply _].
  case_bool_decide; [| apply keeps_throw; apply _].
  intros st. rewrite bind_run. cbn [modify snd log]. split.
  - unfold log. cbn [trace]. rewrite write_column_trace.
    apply prefix_app_r. reflexivity.
  - unfold LASTRUN, log. cbn [cells]. rewrite write_column_cells.
    rewrite bool_decide_eq_false_2 by (intros [? _]; congruence). reflexivity.
Qed.

Lemma updateValues_later lastrow prices :
  keeps later (updateValues env lastrow prices).
Proof.
  unfold updateValues.
  apply keeps_bind; [apply _ | apply setValues_later; lia |]. intros [].
  apply keeps_for_from; [apply _ |]. intros k [].
  unfold update_body. destruct (differs_from_minus_one env _).
  - apply setValue_later. lia.
  - apply keeps_ret; apply _.
Qed.

Lemma after_stamping_later st : keeps later (after_stamping env st).
Proof.
  unfold after_stamping. apply keeps_bind; [apply _ | |].
  - apply keeps_bind; [apply _ | apply getValues_later |]. intros symbols.
    apply keeps_bind; [apply _ | apply getValues_later |]. intros exchange.
    apply keeps_bind; [apply _ | |].
    + apply keeps_for_from; [apply _ |]. intros i prices.
      unfold lookup_body. apply keeps_bind; [apply _ | apply lookup_later |].
      intros q. apply keeps_ret; apply _.
    + intros prices. apply keeps_ret; apply _.
  - intros [lastrow prices]. apply updateValues_later.
Qed.

Lemma updateMasterList_unfold st :
  updateMasterList env st = after_stamping env st (after_timestamp env st).
Proof. reflexivity. Qed.

End Timestamp.

(** C10.  In every run, however it ends, the first thing
    [updateMasterList] does after reading the row count is to write the
    timestamp: every reading of the portfolio columns, every fetch and
    every write of a price comes later in the trace, and the timestamp
    cell holds the time of this run when the run has ended.  When the
    run ends by an exception, the timestamp is the only cell it has
    written. *)
Theorem timestamp_written_first (env : Env) (st : State) :
  let now := VText (clock env (ticks st)) in
  let st' := exec (updateMasterList env) st in
  (exists rest,
     trace st' = trace st ++ EGetValue 1 11 :: ESetValue 2 11 now :: rest) /\
  LASTRUN st' = Some now /\
  (forall e, outcome (updateMasterList env) st = Throw e ->
     cells st' = <[(2, 11)%nat := now]> (cells st)).
Proof.
  intros now st'.
  assert (Hlater : later (after_timestamp env st) st').
  { subst st'. unfold exec. rewrite updateMasterList_unfold.
    apply after_stamping_later. }
  destruct Hlater as [[rest Hrest] Hcell]. split; [| split].
  - exists rest. rewrite Hrest. cbn [after_timestamp trace].
    rewrite <- !app_assoc. reflexivity.
  - rewrite Hcell. unfold LASTRUN. cbn. apply lookup_insert_eq.
  - intros e He. subst st' now. unfold outcome, exec in *.
    destruct (lookupPrices env st) as [[[lastrow prices]|e'] st1] eqn:Hrun.
    + destruct (run_normal env st lastrow prices st1 Hrun)
        as (_ & _ & _ & _ & st2 & Hupd & _).
      rewrite Hupd in He. discriminate He.
    + destruct (run_abort env st e' st1 Hrun) as [Hupd Hcells].
      rewrite Hupd. exact Hcells.
Qed.

Lemma URLFromExchange_run env symbol exchange st :
  URLFromExchange env symbol exchange st =
  (Normal ("https://finance.yahoo.com/quote/" +:+ symbol
           +:+ suffix_of exchange +:+ "?p="
           +:+ Number_toString (fraction_text env)
                 (of_Z (Math_floor
                    (multiply (Z.of_N (random env (drawn st) mod 2 ^ 53) # 2 ^ 53)
                              1000)))),
   mkState (cells st) (fetched st) (S (drawn st)) (ticks st) (trace st)).
Proof. reflexivity. Qed.

(** Rounding to 53 bits moves an integer below [2^63] by 512 at most. *)
Lemma round53_near p :
  0 <= p < 2 ^ 63 -> 0 <= round53 p /\ p - 512 <= round53 p <= p + 512.
Proof.
  intros Hp. unfold round53.
  destruct (Z.leb_spec (Z.log2 p - 52) 0) as [Hs|Hs]; [lia |].
  assert (Hpos : 0 < p).
  { destruct (Z.eq_dec p 0) as [->|]; [cbn in Hs; lia | lia]. }
  assert (Hlog : Z.log2 p < 63) by (apply Z.log2_lt_pow2; lia).
  set (D := 2 ^ (Z.log2 p - 52)).
  assert (HD : 2 <= D <= 1024).
  { subst D. split.
    - change 2 with (2 ^ 1). apply Z.pow_le_mono_r; lia.
    - change 1024 with (2 ^ 10). apply Z.pow_le_mono_r; lia. }
  unfold round_half_even.
  pose proof (Z.div_mod p D ltac:(lia)) as Hdm.
  pose proof (Z.mod_pos_bound p D ltac:(lia)) as Hr.
  assert (Hq : 0 <= p / D) by (apply Z.div_pos; lia).
  assert (Hqd : 0 <= p / D * D) by (apply Z.mul_nonneg_nonneg; lia).
  rewrite (Z.mul_comm D) in Hdm.
  destruct (Z.ltb_spec (2 * (p mod D)) D);
    [| destruct (Z.ltb_spec D (2 * (p mod D))); [| destruct (Z.even (p / D))]];
    rewrite ?Z.mul_add_distr_r, ?Z.mul_1_l; lia.
Qed.

(** The parameter computed from the draw [a / 2^53]: an integer from 0
    to 999, the integer part of 1000 times the draw up to the rounding
    of the product. *)
Lemma parameter_of_draw (a : Z) :
  0 <= a < 2 ^ 53 ->
  0 <= Math_floor (multiply (a # 2 ^ 53) 1000) <= 999 /\
  Math_floor (multiply (a # 2 ^ 53) 1000) * 2 ^ 53 - 512 <= 1000 * a
    < (Math_floor (multiply (a # 2 ^ 53) 1000) + 1) * 2 ^ 53 + 512.
Proof.
  intros Ha.
  assert (Hfloor : Math_floor (multiply (a # 2 ^ 53) 1000)
                   = round53 (a * 1000) / 2 ^ 53).
  { unfold Math_floor, multiply, Qfloor. cbn [Qmult Qnum Qden].
    reflexivity. }
  rewrite Hfloor.
  destruct (round53_near (a * 1000)) as [H0 Hnear]; [lia |].
  pose proof (Z.div_mod (round53 (a * 1000)) (2 ^ 53) ltac:(lia)) as Hdm.
  pose proof (Z.mod_pos_bound (round53 (a * 1000)) (2 ^ 53) ltac:(lia)) as Hr.
  assert (Hq : 0 <= round53 (a * 1000) / 2 ^ 53) by (apply Z.div_pos; lia).
  assert (Hlt : round53 (a * 1000) / 2 ^ 53 < 1000)
    by (apply Z.div_lt_upper_bound; lia).
  lia.
Qed.

Lemma draw_in_range (env : Env) (st : State) :
  0 <= Z.of_N (random env (drawn st) mod 2 ^ 53) < 2 ^ 53.
Proof.
  split; [apply N2Z.is_nonneg |].
  change (2 ^ 53) with (Z.of_N (2 ^ 53)%N). apply N2Z.inj_lt.
  apply N.mod_upper_bound. discriminate.
Qed.

Lemma Number_toString_integer other n :
  Z.abs n < 10 ^ 21 -> Number_toString other (of_Z n) = pretty n.
Proof.
  intros Hn. unfold Number_toString, of_Z, is_integer. cbn [inject_Z Qden Qnum].
  rewrite bool_decide_eq_true_2 by reflexivity.
  apply Z.ltb_lt in Hn. rewrite Hn. reflexivity.
Qed.

(** C7.  [URLFromExchange] returns the quote URL of the symbol followed
    by the suffix of the exchange, which is empty for USA, [.SI] for
    SGX, [.HK] for HKEX, [.SS] for XSSC and, like USA, empty for any
    other code, followed by the query parameter [?p=n].  The parameter
    is randomized: the call consumes the next draw [a / 2^53] of
    [Math.random], and [n] is an integer from 0 to 999 that is the
    integer part of 1000 times that draw, up to the rounding of the
    product (which moves it by less than [2^-43]). *)
Theorem URLFromExchange_suffix_and_parameter (env : Env)
    (symbol exchange : string) (st : State) :
  suffix_of "USA" = "" /\ suffix_of "SGX" = ".SI" /\
  suffix_of "HKEX" = ".HK" /\ suffix_of "XSSC" = ".SS" /\
  (exchange <> "USA" /\ exchange <> "SGX" /\ exchange <> "HKEX" /\
   exchange <> "XSSC" -> suffix_of exchange = suffix_of "USA") /\
  exists n : Z,
    0 <= n <= 999 /\
    n * 2 ^ 53 - 512 <= 1000 * Z.of_N (random env (drawn st) mod 2 ^ 53)
      < (n + 1) * 2 ^ 53 + 512 /\
    URLFromExchange env symbol exchange st =
    (Normal ("https://finance.yahoo.com/quote/" +:+ symbol
             +:+ suffix_of exchange +:+ "?p=" +:+ pretty n),
     mkState (cells st) (fetched st) (S (drawn st)) (ticks st) (trace st)).
Proof.
  do 4 (split; [reflexivity |]). split.
  - intros (H1 & H2 & H3 & H4). unfold suffix_of.
    rewrite !bool_decide_eq_false_2 by assumption. reflexivity.
  - pose proof (draw_in_range env st) as Ha.
    destruct (parameter_of_draw _ Ha) as [Hrange Htie].
    eexists. split; [exact Hrange |]. split; [exact Htie |].
    rewrite URLFromExchange_run. do 6 f_equal.
    apply Number_toString_integer. lia.
Qed.

(** The draw [2233785415175766 / 2^53]: 1000 times it is just below
    248, and the product rounds to 248. *)
Lemma parameter_rounds_up :
  Math_floor (multiply (2233785415175766 # 2 ^ 53) 1000) = 248 /\
  Qfloor (Qmult (2233785415175766 # 2 ^ 53) 1000) = 247.
Proof. split; vm_compute; reflexivity. Qed.

Lemma failed_row_keeps_buffered_witness :
  outcome (updateMasterList Example.env_mixed) Example.start = Normal tt /\
  buffered_price (exec (updateMasterList Example.env_mixed) Example.start) 1
    = buffered_price Example.start 1 /\
  new_price (exec (updateMasterList Example.env_mixed) Example.start) 1
    = Some (VNumber minus_one).
Proof.
  eapply failed_row_keeps_buffered; [vm_compute; reflexivity | reflexivity].
Defined.

Lemma successful_row_updates_both_witness :
  buffered_price (exec (updateMasterList Example.env_mixed) Example.start) 0
    = Some (VNumber (decimal 282 1)) /\
  new_price (exec (updateMasterList Example.env_mixed) Example.start) 0
    = Some (VNumber (decimal 282 1)).
Proof.
    eapply successful_row_updates_both;
    [vm_compute; reflexivity | reflexivity | reflexivity
    | split; vm_compute; reflexivity].
Defined.

Lemma second_failing_run_keeps_buffered_witness :
  cells (exec (updateMasterList Example.env_mixed)
           (exec (updateMasterList Example.env_mixed) Example.start)) !! (2, 7)%nat
  = cells (exec (updateMasterList Example.env_mixed) Example.start) !! (2, 7)%nat.
Proof.
  eapply (second_failing_run_keeps_buffered Example.env_mixed Example.start);
    [vm_compute; reflexivity | repeat constructor].
Defined.

Lemma results_written_in_row_order_witness :
  exists quotes : list number,
    Some 3 = Some (Z.of_nat (length quotes) + 1) /\
    lookup_in_order Example.env_mixed
      (portfolio Example.env_mixed Example.start (length quotes))
      (after_reading Example.env_mixed Example.start (length quotes))
    = (Normal quotes,
       snd (lookupPrices Example.env_mixed Example.start)) /\
    [row (decimal 282 1); row minus_one] = row <$> quotes /\
    (forall k q, quotes !! k = Some q ->
       new_price (exec (updateMasterList Example.env_mixed) Example.start) k
         = Some (VNumber q) /\
              buffered_price (exec (updateMasterList Example.env_mixed) Example.start) k =
         if differs_from_minus_one Example.env_mixed (row q)
         then Some (VNumber (parseFloat_slot Example.env_mixed (row q)))
         else buffered_price Example.start k) /\
    (forall k, (length quotes <= k)%nat ->
       new_price (exec (updateMasterList Example.env_mixed) Example.start) k
         = new_price Example.start k /\
       buffered_price (exec (updateMasterList Example.env_mixed) Example.start) k
         = buffered_price Example.start k).
Proof.
  apply (results_written_in_row_order Example.env_mixed Example.start).
  vm_compute. reflexivity.
Defined.


(** A page that was loaded and in which regex 1 or regex 2 finds no
    match: [lookupQuote] throws, whatever the page. *)
Lemma null_match_throws (env : Env) (symbol url : string) (st st' : State)
    (page : HTTPResponse) :
  load_page env url st = (Normal page, st') ->
  regex1_exec (getContentText page) = None \/
  (exists m, regex1_exec (getContentText page) = Some m /\
             regex2_exec m = None) ->
  lookupQuote env symbol url st =
  (Throw (TypeError "Cannot read property 0 of null"), st').
Proof.
  intros Hload Hnull.
  unfold lookupQuote, try_catch. rewrite bind_run, fmap_run, Hload.
  unfold extract. destruct Hnull as [-> | (m & -> & ->)]; reflexivity.
Qed.

(** The texts fixed by the language read back, whatever the
    environment. *)
Lemma reads_back_special (env : Env) :
  reads_back env NaN /\ reads_back env (Inf false) /\
  reads_back env (Inf true) /\ reads_back env minus_one.
Proof. repeat split; reflexivity. Qed.

(** C4.  The code at a page that was fetched with status 200 and does
    not contain the marker: [lookupQuote] throws a TypeError instead of
    returning [-1], the exception ends [updateMasterList], and no
    [new_price] cell is written. *)
Theorem page_without_marker_aborts_run :
  outcome (lookupQuote Example.env_no_marker "2388"
             "https://finance.yahoo.com/quote/2388.HK?p=500") Example.start
  = Throw (TypeError "Cannot read property 0 of null") /\
  outcome (updateMasterList Example.env_no_marker) Example.start
  = Throw (TypeError "Cannot read property 0 of null") /\
  new_price (exec (updateMasterList Example.env_no_marker) Example.start) 0 = None /\
  new_price (exec (updateMasterList Example.env_no_marker) Example.start) 1 = None.
Proof. vm_compute. repeat split; reflexivity. Qed.

(** C8.  The code at a price with two thousands separators: only the
    first comma is removed, so [lookupQuote] returns 1234 for
    [1,234,567.89], not 1234567.89. *)
Theorem only_first_comma_removed :
  outcome (lookupQuote Example.env_two_commas "X"
             "https://finance.yahoo.com/quote/X?p=500") Example.start
  = Normal (of_Z 1234) /\
  parseFloat "1234567.89" = decimal 123456789 2 /\
  of_Z 1234 <> decimal 123456789 2.
Proof.
  split; [vm_compute; reflexivity | split; [vm_compute; reflexivity |]].
  vm_compute. discriminate.
Qed.

Example extract_28_200 st :
  extract (Example.page_of "28.200") st = (Normal (decimal 282 1), st).
Proof. reflexivity. Qed.

Example extract_1_001_50 st :
  extract (Example.page_of "1,001.50") st = (Normal (decimal 10015 1), st).
Proof. reflexivity. Qed.

Example always_500_fails_after_three :
  let env := Example.env_of [Example.status 500; Example.status 500; Example.status 500] in
  lookupQuote env "DIS" "https://finance.yahoo.com/quote/DIS?p=7" Example.start
  = (Normal minus_one,
     Nat.iter 3 (bump "https://finance.yahoo.com/quote/DIS?p=7") Example.start).
Proof. reflexivity. Qed.

Example ok_on_second_attempt_stops :
  let env := Example.env_of [Example.status 500; Example.ok (Example.page_of "145.20")] in
  lookupQuote env "DIS" "https://finance.yahoo.com/quote/DIS?p=7" Example.start
  = (Normal (decimal 1452 1),
     Nat.iter 2 (bump "https://finance.yahoo.com/quote/DIS?p=7") Example.start).
Proof. reflexivity. Qed.

Example resolve_examples (env : Env) (st : State) :
  exists a b c d,
    outcome (URLFromExchange env "ES3" "SGX") st
      = Normal ("https://finance.yahoo.com/quote/ES3.SI?p=" +:+ a) /\
    outcome (URLFromExchange env "2388" "HKEX") st
      = Normal ("https://finance.yahoo.com/quote/2388.HK?p=" +:+ b) /\
    outcome (URLFromExchange env "DIS" "USA") st
      = Normal ("https://finance.yahoo.com/quote/DIS?p=" +:+ c) /\
    outcome (URLFromExchange env "X" "UNKNOWN") st
      = Normal ("https://finance.yahoo.com/quote/X?p=" +:+ d).
Proof. do 4 eexists. repeat split; reflexivity. Qed.

(** ** A lookup that throws after other rows were looked up *)

(** C1.  The code at a run whose first row fails (status 500 three
    times, so its lookup returns [-1]) and whose second row is answered
    with status 200 and a page without the marker: the second lookup
    throws, [updateMasterList] ends there, and the [new_price] cell of
    the failed row does not receive [-1]: it is not written.  Its
    [buffered_price] cell is as before. *)
Theorem failed_row_unwritten_when_later_row_throws :
  outcome (lookup Edge.env_failure_then_no_marker "2388" "HKEX")
          (after_reading Edge.env_failure_then_no_marker Example.start 2)
  = Normal minus_one /\
  outcome (updateMasterList Edge.env_failure_then_no_marker) Example.start
  = Throw (TypeError "Cannot read property 0 of null") /\
  new_price (exec (updateMasterList Edge.env_failure_then_no_marker)
                  Example.start) 0 = None /\
  buffered_price (exec (updateMasterList Edge.env_failure_then_no_marker)
                       Example.start) 0 = Some Example.old_2388.
Proof. vm_compute. repeat split; reflexivity. Qed.

(** C2.  The code at a run whose first row succeeds with 28.2 and whose
    second row is answered with status 200 and a page without the
    marker: the second lookup throws, [updateMasterList] ends there,
    and neither cell of the first row receives 28.2: [new_price] is not
    written and [buffered_price] still holds 27.55. *)
Theorem successful_row_unwritten_when_later_row_throws :
  outcome (lookup Edge.env_price_then_no_marker "2388" "HKEX")
          (after_reading Edge.env_price_then_no_marker Example.start 2)
  = Normal (decimal 282 1) /\
  at_least_zero (decimal 282 1) = true /\
  outcome (updateMasterList Edge.env_price_then_no_marker) Example.start
  = Throw (TypeError "Cannot read property 0 of null") /\
  new_price (exec (updateMasterList Edge.env_price_then_no_marker)
                  Example.start) 0 = None /\
  buffered_price (exec (updateMasterList Edge.env_price_then_no_marker)
                       Example.start) 0 = Some (VNumber (decimal 2755 2)).
Proof. vm_compute. repeat split; reflexivity. Qed.

(** C6.  The code at the same run, seen over the whole portfolio: the
    lookups of the two rows, in input order, give 28.2 for the first
    and throw at the second; the run ends with that exception, and the
    result of the first row is dropped: the sheet after the run is the
    sheet before it with the timestamp written, and no more. *)
Theorem results_dropped_when_later_row_throws :
  outcome (lookup_in_order Edge.env_price_then_no_marker
             (take 1 (portfolio Edge.env_price_then_no_marker Example.start 2)))
          (after_reading Edge.env_price_then_no_marker Example.start 2)
  = Normal [decimal 282 1] /\
  outcome (lookup_in_order Edge.env_price_then_no_marker
             (portfolio Edge.env_price_then_no_marker Example.start 2))
          (after_reading Edge.env_price_then_no_marker Example.start 2)
  = Throw (TypeError "Cannot read property 0 of null") /\
  outcome (updateMasterList Edge.env_price_then_no_marker) Example.start
  = Throw (TypeError "Cannot read property 0 of null") /\
  forall r c,
    cells (exec (updateMasterList Edge.env_price_then_no_marker) Example.start)
      !! (r, c)
    = <[(2, 11)%nat := VText "9:47:59 PM HKT January 15, 2020"]>
        (cells Example.start) !! (r, c).
Proof.
  split; [vm_compute; reflexivity |]. split; [vm_compute; reflexivity |].
  split; [vm_compute; reflexivity |]. intros r c.
  destruct (run_abort Edge.env_price_then_no_marker Example.start
              (TypeError "Cannot read property 0 of null")
              (snd (lookupPrices Edge.env_price_then_no_marker Example.start)))
    as [Hrun Hcells]; [vm_compute; reflexivity |].
  unfold exec. rewrite Hrun. cbn [snd]. rewrite Hcells. reflexivity.
Qed.


(** * Further properties of the code *)

Lemma append_cons (x : ascii) (a b : string) :
  String x a +:+ b = String x (a +:+ b).
Proof. reflexivity. Qed.

Lemma append_nil_l (b : string) : "" +:+ b = b.
Proof. reflexivity. Qed.

Lemma append_assoc (a b c : string) : (a +:+ b) +:+ c = a +:+ (b +:+ c).
Proof.
  induction a as [|x a IH]; [reflexivity |].
  change (String x ((a +:+ b) +:+ c) = String x (a +:+ (b +:+ c))).
  rewrite IH. reflexivity.
Qed.

Lemma append_nil_r (a : string) : a +:+ "" = a.
Proof.
  induction a as [|x a IH]; [reflexivity |].
  change (String x (a +:+ "") = String x a). rewrite IH. reflexivity.
Qed.

Lemma strip_prefix_app p : forall s rest,
  strip_prefix p s = Some rest -> s = p +:+ rest.
Proof.
  induction p as [|a p IH]; intros s rest.
  - destruct s; intros [= <-]; reflexivity.
  - destruct s as [|b s]; [discriminate |]. cbn [strip_prefix].
    case_bool_decide as Hab; [| discriminate]. subst b.
    intros H. rewrite append_cons. f_equal. apply IH, H.
Qed.

Lemma strip_prefix_self p rest : strip_prefix p (p +:+ rest) = Some rest.
Proof.
  induction p as [|a p IH]; [destruct rest; reflexivity |].
  rewrite append_cons. cbn [strip_prefix].
  rewrite bool_decide_eq_true_2 by reflexivity. exact IH.
Qed.

Lemma span_app p s : forall run rest, span p s = (run, rest) -> s = run +:+ rest.
Proof.
  induction s as [|c s IH]; intros run rest; cbn [span].
  - intros [= <- <-]. reflexivity.
  - destruct (p c).
    + destruct (span p s) as [run' rest'] eqn:E. intros [= <- <-].
      rewrite append_cons. f_equal. apply IH. reflexivity.
    + intros [= <- <-]. reflexivity.
Qed.

Lemma span_stop p run : forall c rest,
  every p run = true -> p c = false ->
  span p (run +:+ String c rest) = (run, String c rest).
Proof.
  induction run as [|x run IH]; intros c rest Hrun Hc.
  - change ("" +:+ String c rest) with (String c rest). cbn [span].
    rewrite Hc. reflexivity.
  - cbn [every] in Hrun. apply andb_prop in Hrun as [Hx Hrun].
    rewrite append_cons. cbn [span].
    rewrite Hx, (IH c rest Hrun Hc). reflexivity.
Qed.

(** *** regex 1 *)

Lemma lazy_until_sound close : forall s m,
  lazy_until close s = Some m ->
  exists mid post,
    m = mid +:+ close /\ s = mid +:+ close +:+ post /\
    every not_line_terminator mid = true /\
    forall a b, mid = a +:+ b -> b <> "" ->
      strip_prefix close (b +:+ close +:+ post) = None.
Proof.
  induction s as [|c s IH]; intros m; cbn [lazy_until].
  - destruct (strip_prefix close "") as [rest|] eqn:Hp; [| discriminate].
    intros [= <-]. exists "", rest.
    split; [reflexivity |]. split; [apply strip_prefix_app in Hp; exact Hp |].
    split; [reflexivity |].
    intros a b Hab Hb. destruct a; destruct b; try discriminate; congruence.
  - destruct (strip_prefix close (String c s)) as [rest|] eqn:Hp.
    + intros [= <-]. exists "", rest.
      split; [reflexivity |]. split; [apply strip_prefix_app in Hp; exact Hp |].
      split; [reflexivity |].
      intros a b Hab Hb. destruct a; destruct b; try discriminate; congruence.
    + destruct (is_line_terminator c) eqn:Hc; [discriminate |].
      destruct (lazy_until close s) as [m'|] eqn:Hm; [| discriminate].
      intros [= <-].
      destruct (IH m' eq_refl) as (mid & post & -> & -> & Hmid & Hshort).
      exists (String c mid), post.
      split; [reflexivity |]. split; [reflexivity |]. split.
      * cbn [every]. unfold not_line_terminator at 1. rewrite Hc. exact Hmid.
      * intros a b Hab Hb. destruct a as [|x a].
        -- rewrite append_nil_l in Hab. subst b. exact Hp.
        -- rewrite append_cons in Hab. injection Hab as -> ->.
           apply (Hshort a b); [reflexivity | exact Hb].
Qed.

Lemma regex1_at_sound s m :
  regex1_at s = Some m ->
  exists mid post,
    m = marker +:+ mid +:+ "</span>" /\ s = m +:+ post /\
    every not_line_terminator mid = true /\
    forall a b, mid = a +:+ b -> b <> "" ->
      strip_prefix "</span>" (b +:+ "</span>" +:+ post) = None.
Proof.
  unfold regex1_at.
  destruct (strip_prefix marker s) as [rest|] eqn:Hp; [| discriminate].
  cbn [mbind option_bind].
  destruct (lazy_until "</span>" rest) as [m'|] eqn:Hm; [| discriminate].
  cbn [mbind option_bind]. intros [= <-].
  destruct (lazy_until_sound _ _ _ Hm) as (mid & post & -> & -> & Hmid & Hshort).
  exists mid, post.
  split; [reflexivity |]. split; [| split; [exact Hmid | exact Hshort]].
  apply strip_prefix_app in Hp. rewrite Hp, !append_assoc. reflexivity.
Qed.

Lemma regex1_exec_sound (html m : string) :
  regex1_exec html = Some m ->
  exists pre mid post,
    html = pre +:+ m +:+ post /\
    m = marker +:+ mid +:+ "</span>" /\
    every not_line_terminator mid = true /\
    (forall a b, mid = a +:+ b -> b <> "" ->
       strip_prefix "</span>" (b +:+ "</span>" +:+ post) = None) /\
    (forall a b, pre = a +:+ b -> b <> "" ->
       regex1_at (b +:+ m +:+ post) = None).
Proof.
  revert m. induction html as [|c s IH]; intros m; cbn [regex1_exec].
  - destruct (regex1_at "") as [m'|] eqn:Hat; [| discriminate].
    intros [= <-]. destruct (regex1_at_sound _ _ Hat) as (mid & post & Hm & Hs & Hmid & Hshort).
    exists "", mid, post.
    split; [exact Hs |]. split; [exact Hm |]. split; [exact Hmid |].
    split; [exact Hshort |].
    intros a b Hab Hb. destruct a; destruct b; try discriminate; congruence.
  - destruct (regex1_at (String c s)) as [m'|] eqn:Hat.
    + intros [= <-]. destruct (regex1_at_sound _ _ Hat) as (mid & post & Hm & Hs & Hmid & Hshort).
      exists "", mid, post.
      split; [exact Hs |]. split; [exact Hm |]. split; [exact Hmid |].
      split; [exact Hshort |].
      intros a b Hab Hb. destruct a; destruct b; try discriminate; congruence.
    + intros Hm. destruct (IH m Hm) as (pre & mid & post & -> & Hmm & Hmid & Hshort & Hleft).
      exists (String c pre), mid, post.
      split; [reflexivity |]. split; [exact Hmm |]. split; [exact Hmid |].
      split; [exact Hshort |].
      intros a b Hab Hb. destruct a as [|x a].
      * rewrite append_nil_l in Hab. subst b. exact Hat.
      * rewrite append_cons in Hab. injection Hab as -> ->.
        apply (Hleft a b); [reflexivity | exact Hb].
Qed.

(** X1.  When the first regular expression of [lookupQuote] matches,
    the match [m] is a piece of the page that starts with the marker
    and ends with the first closing span tag after it: what lies
    between has no line terminator and no earlier closing tag, and the
    expression matches at no earlier position of the page. *)
Theorem regex1_match_is_first_element (html m : string) :
  regex1_exec html = Some m ->
  exists pre mid post,
    html = pre +:+ m +:+ post /\
    m = marker +:+ mid +:+ "</span>" /\
    every not_line_terminator mid = true /\
    (forall a b, mid = a +:+ b -> b <> "" ->
       strip_prefix "</span>" (b +:+ "</span>" +:+ post) = None) /\
    (forall a b, pre = a +:+ b -> b <> "" ->
       regex1_at (b +:+ m +:+ post) = None).
Proof. exact (regex1_exec_sound html m). Qed.

Lemma regex1_match_is_first_element_witness :
  exists pre mid post,
    Example.page_of "28.200" = pre +:+ Example.span_of "28.200" +:+ post /\
    Example.span_of "28.200" = marker +:+ mid +:+ "</span>" /\
    every not_line_terminator mid = true /\
    (forall a b, mid = a +:+ b -> b <> "" ->
       strip_prefix "</span>" (b +:+ "</span>" +:+ post) = None) /\
    (forall a b, pre = a +:+ b -> b <> "" ->
       regex1_at (b +:+ Example.span_of "28.200" +:+ post) = None).
Proof.
  apply (regex1_match_is_first_element (Example.page_of "28.200")).
  vm_compute. reflexivity.
Defined.

(** *** regex 2 *)

Lemma regex2_at_sound s f :
  regex2_at s = Some f ->
  exists run post,
    f = ">" +:+ run +:+ "<" /\ s = f +:+ post /\ every is_numeric run = true.
Proof.
  unfold regex2_at. destruct s as [|c s1]; [discriminate |].
  case_bool_decide as Hc; [| discriminate]. subst c.
  pose proof (span_every is_numeric s1) as Hrun.
  pose proof (span_app is_numeric s1) as Happ.
  destruct (span is_numeric s1) as [run rest]. cbn [fst] in Hrun.
  specialize (Happ run rest eq_refl).
  destruct rest as [|d rest]; [discriminate |].
  case_bool_decide as Hd; [| discriminate]. subst d.
  intros [= <-]. exists run, rest.
  split; [reflexivity |]. split; [| exact Hrun].
  rewrite Happ. rewrite !append_cons, append_nil_l, append_assoc. reflexivity.
Qed.

Lemma regex2_exec_sound (s f : string) :
  regex2_exec s = Some f ->
  exists pre run post,
    s = pre +:+ f +:+ post /\
    f = ">" +:+ run +:+ "<" /\
    every is_numeric run = true /\
    (forall a b, pre = a +:+ b -> b <> "" ->
       regex2_at (b +:+ f +:+ post) = None).
Proof.
  revert f. induction s as [|c s IH]; intros f; cbn [regex2_exec].
  - destruct (regex2_at "") as [f'|] eqn:Hat; [| discriminate]. discriminate Hat.
  - destruct (regex2_at (String c s)) as [f'|] eqn:Hat.
    + intros [= <-]. destruct (regex2_at_sound _ _ Hat) as (run & post & Hf & Hs & Hrun).
      exists "", run, post.
      split; [exact Hs |]. split; [exact Hf |]. split; [exact Hrun |].
      intros a b Hab Hb. destruct a; destruct b; try discriminate; congruence.
    + intros Hf. destruct (IH f Hf) as (pre & run & post & -> & Hff & Hrun & Hleft).
      exists (String c pre), run, post.
      split; [reflexivity |]. split; [exact Hff |]. split; [exact Hrun |].
      intros a b Hab Hb. destruct a as [|x a].
      * rewrite append_nil_l in Hab. subst b. exact Hat.
      * rewrite append_cons in Hab. injection Hab as -> ->.
        apply (Hleft a b); [reflexivity | exact Hb].
Qed.

(** *** The three replacements *)

Lemma replace_first_char (c : ascii) (a : string) : forall b,
  every (fun x => negb (bool_decide (x = c))) a = true ->
  replace (String c "") "" (a +:+ String c b) = a +:+ b.
Proof.
  induction a as [|x a IH]; intros b Ha.
  - rewrite !append_nil_l. cbn [replace strip_prefix].
    rewrite bool_decide_eq_true_2 by reflexivity. destruct b; reflexivity.
  - cbn [every] in Ha. apply andb_prop in Ha as [Hx Ha].
    rewrite !append_cons. cbn [replace strip_prefix].
    destruct (bool_decide (c = x)) eqn:Hcx.
    + apply bool_decide_eq_true in Hcx. subst x.
      rewrite bool_decide_eq_true_2 in Hx by reflexivity. discriminate Hx.
    + rewrite (IH b Ha). reflexivity.
Qed.

Lemma numeric_not_lt_sign c :
  is_numeric c = true -> negb (bool_decide (c = "<"%char)) = true.
Proof.
  intros H. destruct (decide (c = "<"%char)) as [->|Hne].
  - vm_compute in H. discriminate H.
  - rewrite bool_decide_eq_false_2 by exact Hne. reflexivity.
Qed.

(** What the three calls of [replace] leave of a match of regex 2: the
    run between the delimiters, without its first comma. *)
Lemma cleaned_match run :
  every is_numeric run = true ->
  replace "," "" (replace ">" "" (replace "<" "" (">" +:+ run +:+ "<")))
  = replace "," "" run.
Proof.
  intros Hrun. f_equal.
  change (">" +:+ run +:+ "<") with ((String ">" run) +:+ String "<" "").
  rewrite replace_first_char.
  - rewrite append_nil_r. cbn [replace strip_prefix].
    rewrite bool_decide_eq_true_2 by reflexivity. destruct run; reflexivity.
  - cbn [every]. rewrite (every_impl _ _ _ numeric_not_lt_sign Hrun). reflexivity.
Qed.

(** X3.  When the statements of [lookupQuote] after the [try] return a
    number, they leave the state alone, and the number is [parseFloat]
    of a run of digits, points and commas with its first comma removed.
    The run is the first one of the first element: the element starts
    at the first position of the page where the marker is followed, on
    the same line, by a closing span tag, and ends at the first such
    tag; the run stands between [>] and [<] at the first position of
    the element where a [>] is followed by such a run and [<]. *)
Theorem extract_parses_first_delimited_run (html : string) (st st' : State)
    (q : number) :
  extract html st = (Normal q, st') ->
  st' = st /\
  exists pre mid post a run b,
    html = pre +:+ marker +:+ mid +:+ "</span>" +:+ post /\
    every not_line_terminator mid = true /\
    (forall x y, mid = x +:+ y -> y <> "" ->
       strip_prefix "</span>" (y +:+ "</span>" +:+ post) = None) /\
    (forall x y, pre = x +:+ y -> y <> "" ->
       regex1_at (y +:+ marker +:+ mid +:+ "</span>" +:+ post) = None) /\
    marker +:+ mid +:+ "</span>" = a +:+ ">" +:+ run +:+ "<" +:+ b /\
    every is_numeric run = true /\
    (forall x y, a = x +:+ y -> y <> "" ->
       regex2_at (y +:+ ">" +:+ run +:+ "<" +:+ b) = None) /\
    q = parseFloat (replace "," "" run).
Proof.
  unfold extract.
  destruct (regex1_exec html) as [m1|] eqn:H1; [| discriminate].
  destruct (regex2_exec m1) as [m2|] eqn:H2; [| discriminate].
  rewrite ret_run. intros [= <- <-]. split; [reflexivity |].
  destruct (regex1_exec_sound _ _ H1)
    as (pre & mid & post & Hhtml & Hm1 & Hmid & Hshort & Hleft1).
  destruct (regex2_exec_sound _ _ H2)
    as (a & run & b & Hsplit & Hm2 & Hrun & Hleft2).
  exists pre, mid, post, a, run, b.
  split; [rewrite Hhtml, Hm1, !append_assoc; reflexivity |].
  split; [exact Hmid |]. split; [exact Hshort |].
  split.
  { intros x y Hxy Hy. specialize (Hleft1 x y Hxy Hy).
    rewrite Hm1, !append_assoc in Hleft1. exact Hleft1. }
  split; [rewrite <- Hm1, Hsplit, Hm2, !append_assoc; reflexivity |].
  split; [exact Hrun |].
  split.
  { intros x y Hxy Hy. specialize (Hleft2 x y Hxy Hy).
    rewrite Hm2, !append_assoc in Hleft2. exact Hleft2. }
  rewrite Hm2, cleaned_match by exact Hrun. reflexivity.
Qed.

(** *** A well-formed price element *)

Lemma regex2_exec_skip a : forall s,
  every not_gt a = true -> regex2_exec (a +:+ s) = regex2_exec s.
Proof.
  induction a as [|x a IH]; intros s Ha; [reflexivity |].
  cbn [every] in Ha. apply andb_prop in Ha as [Hx Ha].
  rewrite append_cons. cbn [regex2_exec regex2_at].
  unfold not_gt in Hx. destruct (bool_decide (x = ">"%char)); [discriminate |].
  apply IH, Ha.
Qed.

Lemma numeric_is_not_lt c : is_numeric c = true -> c <> "<"%char.
Proof. intros H ->. vm_compute in H. discriminate H. Qed.

Lemma regex2_exec_element attrs price rest :
  every not_gt attrs = true ->
  every is_numeric price = true ->
  regex2_exec (marker +:+ attrs +:+ ">" +:+ price +:+ "<" +:+ rest)
  = Some (">" +:+ price +:+ "<").
Proof.
  intros Hattrs Hprice.
  rewrite <- append_assoc. rewrite regex2_exec_skip.
  - change (">" +:+ price +:+ "<" +:+ rest)
      with (String ">" (price +:+ String "<" rest)).
    destruct (price +:+ String "<" rest) as [|c0 s0] eqn:E.
    { destruct price; discriminate E. }
    rewrite <- E. clear E c0 s0.
    assert (Hat : regex2_at (String ">" (price +:+ String "<" rest))
                  = Some (">" +:+ price +:+ "<")).
    { cbn [regex2_at]. rewrite bool_decide_eq_true_2 by reflexivity.
      rewrite span_stop by (exact Hprice || reflexivity).
      rewrite bool_decide_eq_true_2 by reflexivity. reflexivity. }
    cbn [regex2_exec]. rewrite Hat. reflexivity.
  - rewrite every_app, Hattrs. reflexivity.
Qed.

(** X4.  When the element the first regular expression finds is the
    marker, attributes without [>], the closing [>] of the opening tag,
    a text of digits, points and commas, and the closing span tag, the
    result is [parseFloat] of that text with its first comma removed. *)
Theorem extract_well_formed_element (html attrs price : string) (st : State) :
  regex1_exec html = Some (marker +:+ attrs +:+ ">" +:+ price +:+ "</span>") ->
  every not_gt attrs = true ->
  every is_numeric price = true ->
  extract html st = (Normal (parseFloat (replace "," "" price)), st).
Proof.
  intros H1 Hattrs Hprice. unfold extract. rewrite H1.
  change (marker +:+ attrs +:+ ">" +:+ price +:+ "</span>")
    with (marker +:+ attrs +:+ ">" +:+ price +:+ "<" +:+ "/span>").
  rewrite regex2_exec_element by assumption.
  rewrite cleaned_match by exact Hprice. reflexivity.
Qed.

(** X2.  When the second regular expression of [lookupQuote] matches,
    the match is [>], a run of digits, points and commas, and [<], and
    the expression matches at no earlier position. *)
Theorem regex2_match_is_first_delimited_run (s f : string) :
  regex2_exec s = Some f ->
  exists pre run post,
    s = pre +:+ f +:+ post /\
    f = ">" +:+ run +:+ "<" /\
    every is_numeric run = true /\
    (forall a b, pre = a +:+ b -> b <> "" ->
       regex2_at (b +:+ f +:+ post) = None).
Proof. exact (regex2_exec_sound s f). Qed.

Lemma regex2_match_is_first_delimited_run_witness :
  exists pre run post,
    Example.span_of "28.200" = pre +:+ ">28.200<" +:+ post /\
    ">28.200<" = ">" +:+ run +:+ "<" /\
    every is_numeric run = true /\
    (forall a b, pre = a +:+ b -> b <> "" ->
       regex2_at (b +:+ ">28.200<" +:+ post) = None).
Proof.
  apply (regex2_match_is_first_delimited_run (Example.span_of "28.200")).
  vm_compute. reflexivity.
Defined.

Lemma extract_parses_first_delimited_run_witness :
  Example.start = Example.start /\
  exists pre mid post a run b,
    Example.page_of "28.200"
      = pre +:+ marker +:+ mid +:+ "</span>" +:+ post /\
    every not_line_terminator mid = true /\
    (forall x y, mid = x +:+ y -> y <> "" ->
       strip_prefix "</span>" (y +:+ "</span>" +:+ post) = None) /\
    (forall x y, pre = x +:+ y -> y <> "" ->
       regex1_at (y +:+ marker +:+ mid +:+ "</span>" +:+ post) = None) /\
    marker +:+ mid +:+ "</span>" = a +:+ ">" +:+ run +:+ "<" +:+ b /\
    every is_numeric run = true /\
    (forall x y, a = x +:+ y -> y <> "" ->
       regex2_at (y +:+ ">" +:+ run +:+ "<" +:+ b) = None) /\
    decimal 282 1 = parseFloat (replace "," "" run).
Proof.
  apply (extract_parses_first_delimited_run (Example.page_of "28.200")
           Example.start Example.start).
  vm_compute. reflexivity.
Defined.

Lemma extract_well_formed_element_witness :
  extract (Example.page_of "1,234.50") Example.start
  = (Normal (parseFloat (replace "," "" "1,234.50")), Example.start).
Proof.
  apply (extract_well_formed_element _ Edge.attributes "1,234.50").
  - vm_compute. reflexivity.
  - vm_compute. reflexivity.
  - vm_compute. reflexivity.
Defined.

(** ** What [lookupQuote] can return *)

Lemma extract_nonnegative html st q st' :
  extract html st = (Normal q, st') -> nonnegative q.
Proof.
  destruct (extract_run html) as (r & Hr & Hq). rewrite Hr.
  intros [= -> _]. exact (Hq q eq_refl).
Qed.

Lemma extract_throws html st e st' :
  extract html st = (Throw e, st') ->
  e = TypeError "Cannot read property 0 of null".
Proof.
  unfold extract. destruct (regex1_exec html) as [m|].
  - destruct (regex2_exec m); [discriminate |]. intros [= <- _]. reflexivity.
  - intros [= <- _]. reflexivity.
Qed.

(** X5.  Whatever the network answers, [lookupQuote] returns [-1], or
    NaN, or a number that is not below zero; or it throws the TypeError
    of reading element 0 of a [null] match.  It throws nothing else,
    and no other negative number comes out of it. *)
Theorem lookupQuote_result_range (env : Env) (symbol url : string) (st : State) :
  match outcome (lookupQuote env symbol url) st with
  | Normal q => q = minus_one \/ nonnegative q
  | Throw e => e = TypeError "Cannot read property 0 of null"
  end.
Proof.
  unfold outcome. rewrite lookupQuote_run.
  repeat match goal with
  | |- context [match answer ?e ?s ?u ?j with _ => _ end] =>
      destruct (answer e s u j)
  | |- context [if ?b then _ else _] => destruct b
  | |- context [extract ?h ?s] =>
      let H := fresh "H" in
      destruct (extract h s) as [[?|?] ?] eqn:H; cbn [fst];
      [right; exact (extract_nonnegative _ _ _ _ H) | exact (extract_throws _ _ _ _ H)]
  end; cbn [fst]; left; reflexivity.
Qed.

(** ** One row *)

Section OneRow.
Variable env : Env.

Lemma URLFromExchange_url symbol exchange st :
  exists n, 0 <= n <= 999 /\
    URLFromExchange env symbol exchange st
    = (Normal (quote_url symbol exchange n), draw st).
Proof.
  pose proof (draw_in_range env st) as Ha.
  destruct (parameter_of_draw _ Ha) as [Hrange _].
  eexists. split; [exact Hrange |].
  rewrite URLFromExchange_run. unfold quote_url, draw. do 6 f_equal.
  apply Number_toString_integer. lia.
Qed.

Lemma bumps_drawn url k st : drawn (Nat.iter k (bump url) st) = drawn st.
Proof. induction k as [|k IH]; [reflexivity | exact IH]. Qed.

Lemma bumps_cells url k st : cells (Nat.iter k (bump url) st) = cells st.
Proof. induction k as [|k IH]; [reflexivity | exact IH]. Qed.

Lemma bumps_ticks url k st : ticks (Nat.iter k (bump url) st) = ticks st.
Proof. induction k as [|k IH]; [reflexivity | exact IH]. Qed.

(** [lookup], unfolded: one draw, then [k] fetches of the URL drawn. *)
Lemma lookup_run symbol exchange st :
  exists n k r,
    0 <= n <= 999 /\ (1 <= k <= 3)%nat /\
    lookup env symbol exchange st
    = (r, Nat.iter k (bump (quote_url symbol exchange n)) (draw st)) /\
    ((forall j url, is_200 (network env (fetched st + j)%nat url) = false) ->
     r = Normal minus_one).
Proof.
  destruct (URLFromExchange_url symbol exchange st) as (n & Hn & Hurl).
  destruct (lookupQuote_summary env symbol (quote_url symbol exchange n) (draw st))
    as (k & r & Hrun & Hk & _ & Hlast).
  exists n, k, r. split; [exact Hn |]. split; [exact Hk |]. split.
  - unfold lookup. rewrite bind_run, Hurl. exact Hrun.
  - intros Hoff. destruct Hlast as [(H200 & _)|(_ & Hr & _)]; [| exact Hr].
    unfold answer in H200. cbn [draw fetched] in H200.
    rewrite Hoff in H200. discriminate H200.
Qed.

(** X6.  One iteration of the lookup loop draws one random number, and
    its fetches, one to three of them, all go to the one URL built from
    that draw: the quote URL of the symbol, with the suffix of its
    exchange and a parameter between 0 and 999.  The sheet is not
    touched. *)
Theorem lookup_fetches_one_url (symbol exchange : string) (st : State) :
  exists (n : Z) (k : nat),
    0 <= n <= 999 /\ (1 <= k <= 3)%nat /\
    trace (exec (lookup env symbol exchange) st)
    = trace st ++ replicate k (EFetch (quote_url symbol exchange n)) /\
    fetched (exec (lookup env symbol exchange) st) = (fetched st + k)%nat /\
    drawn (exec (lookup env symbol exchange) st) = S (drawn st) /\
    cells (exec (lookup env symbol exchange) st) = cells st.
Proof.
  destruct (lookup_run symbol exchange st) as (n & k & r & Hn & Hk & Hrun & _).
  exists n, k. unfold exec. rewrite Hrun. cbn [snd].
  rewrite bumps_trace, bumps_fetched, bumps_drawn, bumps_cells.
  repeat split; try lia; reflexivity.
Qed.

End OneRow.

#[local] Instance same_counters_preorder : PreOrder same_counters.
Proof.
  split.
  - intros st. split; reflexivity.
  - intros a b c [H1 H2] [H3 H4]. split; congruence.
Qed.

#[local] Instance unstamped_preorder : PreOrder unstamped.
Proof.
  split.
  - intros st. split; [reflexivity |]. exists []. rewrite app_nil_r. split; reflexivity.
  - intros a b c [H1 (es1 & T1 & F1)] [H2 (es2 & T2 & F2)].
    split; [congruence |]. exists (es1 ++ es2).
    rewrite T2, T1, app_assoc, filter_app, F1, F2. split; reflexivity.
Qed.

Lemma write_column_counters vs : forall r c st,
  fetched (write_column r c vs st) = fetched st /\
  drawn (write_column r c vs st) = drawn st /\
  ticks (write_column r c vs st) = ticks st.
Proof.
  induction vs as [|v vs IH]; intros r c st; [repeat split |].
  cbn [write_column]. destruct (IH (S r) c (write_cell r c v st)) as (-> & -> & ->).
  repeat split.
Qed.

Section Budget.
Variable env : Env.

Lemma getRange_rows_quiet (R : State -> State -> Prop) `{!PreOrder R} numRows :
  keeps R (getRange_rows numRows).
Proof.
  unfold getRange_rows. destruct numRows as [z|]; [| apply keeps_throw; apply _].
  destruct (1 <=? z); [apply keeps_ret | apply keeps_throw]; apply _.
Qed.

Lemma setValues_counters r c numRows rows :
  keeps same_counters (setValues r c numRows rows).
Proof.
  unfold setValues.
  apply keeps_bind; [apply _ | apply getRange_rows_quiet; apply _ |]. intros n.
  destruct (mapM slot_value rows) as [vs|]; [| apply keeps_throw; apply _].
  case_bool_decide; [| apply keeps_throw; apply _].
  intros st. rewrite bind_run. cbn [modify snd].
  destruct (write_column_counters vs r c st) as (Hf & Hd & _).
  split; cbn [log fetched drawn]; assumption.
Qed.

Lemma updateValues_counters lastrow prices :
  keeps same_counters (updateValues env lastrow prices).
Proof.
  unfold updateValues.
  apply keeps_bind; [apply _ | apply setValues_counters |]. intros [].
  apply keeps_for_from; [apply _ |]. intros k [].
  unfold update_body. destruct (differs_from_minus_one env _).
  - intros st. split; reflexivity.
  - apply keeps_ret; apply _.
Qed.

Lemma lookup_in_order_budget rows : forall st,
  within (3 * length rows) (length rows) st (exec (lookup_in_order env rows) st) /\
  (forall qs, outcome (lookup_in_order env rows) st = Normal qs ->
     drawn (exec (lookup_in_order env rows) st) = (drawn st + length rows)%nat /\
     (fetched st + length rows <= fetched (exec (lookup_in_order env rows) st))%nat).
Proof.
  unfold exec, outcome, within.
  induction rows as [|[symbol exchange] rows IH]; intros st.
  - cbn [lookup_in_order length]. rewrite ret_run. cbn [fst snd].
    split; [lia | intros _ _; lia].
  - cbn [lookup_in_order length]. rewrite bind_run.
    destruct (lookup_run env symbol exchange st) as (n & k & r & _ & Hk & -> & _).
    set (st1 := Nat.iter k (bump (quote_url symbol exchange n)) (draw st)).
    assert (Hf : fetched st1 = (fetched st + k)%nat)
      by (subst st1; rewrite bumps_fetched; reflexivity).
    assert (Hd : drawn st1 = S (drawn st))
      by (subst st1; rewrite bumps_drawn; reflexivity).
    destruct r as [q|e].
    + rewrite bind_run. specialize (IH st1).
      destruct (lookup_in_order env rows st1) as [[qs|e] st2]; cbn [fst snd] in *.
      * rewrite ret_run. cbn [fst snd]. destruct IH as [IH1 IH2].
        specialize (IH2 qs eq_refl). split; [lia |]. intros _ _. lia.
      * destruct IH as [IH1 _]. split; [lia |]. intros qs' [=].
    + cbn [fst snd]. split; [lia |]. intros qs [=].
Qed.

Lemma lookup_in_order_offline rows : forall st,
  (forall j url, is_200 (network env (fetched st + j)%nat url) = false) ->
  exists st',
    lookup_in_order env rows st = (Normal (replicate (length rows) minus_one), st').
Proof.
  induction rows as [|[symbol exchange] rows IH]; intros st Hoff.
  - eexists. reflexivity.
  - cbn [lookup_in_order length replicate]. rewrite bind_run.
    destruct (lookup_run env symbol exchange st) as (n & k & r & _ & Hk & -> & Hr).
    rewrite (Hr Hoff).
    set (st1 := Nat.iter k (bump (quote_url symbol exchange n)) (draw st)).
    destruct (IH st1) as [st' Hst'].
    { intros j url. subst st1. rewrite bumps_fetched. cbn [draw fetched].
      rewrite <- Nat.add_assoc. apply Hoff. }
    exists st'. rewrite bind_run, Hst', ret_run. reflexivity.
Qed.

(** The state in which the lookups of a run end, and the counters of
    the whole run. *)
Lemma run_counters st :
  same_counters (exec (lookupPrices env) st) (exec (updateMasterList env) st) /\
  (forall u, outcome (updateMasterList env) st = Normal u ->
     exists p, outcome (lookupPrices env) st = Normal p).
Proof.
  unfold exec, outcome, updateMasterList. rewrite bind_run.
  destruct (lookupPrices env st) as [[[lastrow prices]|e] st1]; cbn [fst snd].
  - split; [apply updateValues_counters | eauto].
  - split; [reflexivity | intros u [=]].
Qed.

End Budget.

(** X7.  With [n] the number of rows the range of [lastrow - 1] rows
    has (0 when the range is refused), a run, however it ends, draws at
    most [n] random numbers and makes at most [3 * n] fetches.  A run
    that ends normally has drawn exactly [n] numbers and made at least
    [n] fetches. *)
Theorem run_budget (env : Env) (st : State) :
  let n := default 0%nat (rows_of (Z.pred <$> lastrow_of env st)) in
  let st' := exec (updateMasterList env) st in
  (fetched st <= fetched st' <= fetched st + 3 * n)%nat /\
  (drawn st <= drawn st' <= drawn st + n)%nat /\
  (outcome (updateMasterList env) st = Normal tt ->
   drawn st' = (drawn st + n)%nat /\ (fetched st + n <= fetched st')%nat).
Proof.
  cbn zeta. destruct (run_counters env st) as [[Hf Hd] Hnormal].
  rewrite Hf, Hd. clear Hf Hd.
  pose proof (lookupPrices_run env st) as H. unfold exec, outcome in *.
  destruct (rows_of (Z.pred <$> lastrow_of env st)) as [n|] eqn:Hrows; cbn [default]; unfold id.
  - rewrite bind_run in H.
    destruct (lookup_in_order_budget env (portfolio env st n) (after_reading env st n))
      as [Hw Hall].
    unfold exec, outcome, within in Hw, Hall.
    assert (Hlen : length (portfolio env st n) = n)
      by (unfold portfolio; rewrite length_fmap, length_seq; reflexivity).
    rewrite Hlen in Hw, Hall. cbn [after_reading log after_timestamp fetched drawn] in Hw, Hall.
    destruct (lookup_in_order env (portfolio env st n) (after_reading env st n))
      as [[qs|e] st1]; rewrite H in Hnormal |- *; rewrite ?ret_run;
      cbn [fst snd] in *.
    + specialize (Hall qs eq_refl). lia.
    + split; [lia |]. split; [lia |]. intros Hu.
      destruct (Hnormal tt Hu) as [p Hp]. discriminate Hp.
  - destruct H as [e He]. split; [| split].
    + rewrite He. cbn. lia.
    + rewrite He. cbn. lia.
    + intros Hu. destruct (Hnormal tt Hu) as [p Hp]. rewrite He in Hp. discriminate Hp.
Qed.

Lemma getValues_refused r c numRows st :
  rows_of numRows = None ->
  getValues r c numRows st =
  (Throw (Exception "The number of rows in the range must be at least 1."), st).
Proof.
  unfold rows_of, getValues, getRange_rows. destruct numRows as [z|]; [| reflexivity].
  destruct (1 <=? z); [discriminate | reflexivity].
Qed.

Lemma filter_replicate_fetch url k :
  filter writes_timestamp (replicate k (EFetch url)) = [].
Proof. induction k as [|k IH]; [reflexivity | exact IH]. Qed.

Lemma unstamped_log e st : writes_timestamp e = false -> unstamped st (log e st).
Proof.
  intros He. split; [reflexivity |]. exists [e]. split; [reflexivity |].
  cbn. rewrite He. reflexivity.
Qed.

Section Stamp.
Variable env : Env.

Lemma getValues_unstamped r c numRows : keeps unstamped (getValues r c numRows).
Proof.
  unfold getValues. apply keeps_bind; [apply _ | apply getRange_rows_quiet; apply _ |].
  intros n. apply keeps_bind; [apply _ | apply keeps_gets; apply _ |].
  intros vs. apply keeps_bind; [apply _ | | intros []; apply keeps_ret; apply _].
  apply keeps_modify. intros st. apply unstamped_log. reflexivity.
Qed.

Lemma lookup_unstamped symbol exchange : keeps unstamped (lookup env symbol exchange).
Proof.
  intros st.
  destruct (lookup_run env symbol exchange st) as (n & k & r & _ & _ & -> & _).
  cbn [snd]. split.
  - rewrite bumps_ticks. reflexivity.
  - eexists. split; [rewrite bumps_trace; reflexivity |].
    apply filter_replicate_fetch.
Qed.

Lemma setValue_unstamped r c v : c <> 11%nat -> keeps unstamped (setValue r c v).
Proof.
  intros Hc st. split; [reflexivity |]. exists [ESetValue r c v].
  split; [reflexivity |]. cbn.
  rewrite (bool_decide_eq_false_2 (c = 11%nat) Hc), andb_false_r. reflexivity.
Qed.

Lemma setValues_unstamped r c numRows rows :
  keeps unstamped (setValues r c numRows rows).
Proof.
  unfold setValues.
  apply keeps_bind; [apply _ | apply getRange_rows_quiet; apply _ |]. intros n.
  destruct (mapM slot_value rows) as [vs|]; [| apply keeps_throw; apply _].
  case_bool_decide; [| apply keeps_throw; apply _].
  intros st. rewrite bind_run. cbn [modify snd]. split.
  - cbn [log ticks]. apply write_column_counters.
  - eexists. split; [unfold log; cbn [trace]; rewrite write_column_trace; reflexivity |].
    reflexivity.
Qed.

Lemma updateValues_unstamped lastrow prices :
  keeps unstamped (updateValues env lastrow prices).
Proof.
  unfold updateValues.
  apply keeps_bind; [apply _ | apply setValues_unstamped |]. intros [].
  apply keeps_for_from; [apply _ |]. intros k [].
  unfold update_body. destruct (differs_from_minus_one env _).
  - apply setValue_unstamped. lia.
  - apply keeps_ret; apply _.
Qed.

Lemma after_stamping_unstamped st : keeps unstamped (after_stamping env st).
Proof.
  unfold after_stamping. apply keeps_bind; [apply _ | |].
  - apply keeps_bind; [apply _ | apply getValues_unstamped |]. intros symbols.
    apply keeps_bind; [apply _ | apply getValues_unstamped |]. intros exchange.
    apply keeps_bind; [apply _ | |].
    + apply keeps_for_from; [apply _ |]. intros i prices.
      unfold lookup_body. apply keeps_bind; [apply _ | apply lookup_unstamped |].
      intros q. apply keeps_ret; apply _.
    + intros prices. apply keeps_ret; apply _.
  - intros [lastrow prices]. apply updateValues_unstamped.
Qed.

End Stamp.

(** X8.  When LASTROW does not read as an integer, or reads as one
    below 2 (a sheet with no portfolio row), the run writes the
    timestamp and then stops with the exception of [getRange]: nothing
    is fetched, no random number is drawn and no price cell is
    written. *)
Theorem refused_range_stops_after_timestamp (env : Env) (st : State) :
  (forall z, lastrow_of env st = Some z -> z < 2) ->
  updateMasterList env st =
  (Throw (Exception "The number of rows in the range must be at least 1."),
   mkState (<[(2, 11)%nat := VText (clock env (ticks st))]> (cells st))
           (fetched st) (drawn st) (S (ticks st))
           (trace st ++ [EGetValue 1 11;
                         ESetValue 2 11 (VText (clock env (ticks st)))])).
Proof.
  intros Hlast.
  assert (Hrows : rows_of (Z.pred <$> lastrow_of env st) = None).
  { destruct (lastrow_of env st) as [z|]; [| reflexivity].
    specialize (Hlast z eq_refl). cbn [fmap option_fmap option_map rows_of].
    destruct (1 <=? Z.pred z) eqn:E; [| reflexivity]. apply Z.leb_le in E. lia. }
  assert (Hst : after_timestamp env st =
    mkState (<[(2, 11)%nat := VText (clock env (ticks st))]> (cells st))
           (fetched st) (drawn st) (S (ticks st))
           (trace st ++ [EGetValue 1 11;
                         ESetValue 2 11 (VText (clock env (ticks st)))])).
  { unfold after_timestamp. rewrite <- app_assoc. reflexivity. }
  rewrite <- Hst.
  unfold updateMasterList. rewrite bind_run, lookupPrices_unfold, bind_run.
  rewrite (getValues_refused _ _ _ _ Hrows). reflexivity.
Qed.

Lemma refused_range_stops_after_timestamp_witness :
  updateMasterList Edge.env_offline Edge.header_only =
  (Throw (Exception "The number of rows in the range must be at least 1."),
   mkState (<[(2, 11)%nat :=
               VText (clock Edge.env_offline (ticks Edge.header_only))]>
              (cells Edge.header_only))
           (fetched Edge.header_only) (drawn Edge.header_only)
           (S (ticks Edge.header_only))
           (trace Edge.header_only ++
              [EGetValue 1 11;
               ESetValue 2 11
                 (VText (clock Edge.env_offline (ticks Edge.header_only)))])).
Proof.
  apply (refused_range_stops_after_timestamp Edge.env_offline Edge.header_only).
  intros z H. vm_compute in H. injection H as <-. lia.
Defined.

(** X9.  A run, however it ends, writes no cell outside columns F and
    G other than the timestamp cell K2.  So LASTROW and the symbols and
    exchanges of the portfolio read after the run as they did before
    it. *)
Theorem run_keeps_inputs (env : Env) (st : State) :
  let st' := exec (updateMasterList env) st in
  (forall r c, c <> 6%nat -> c <> 7%nat -> (r, c) <> (2, 11)%nat ->
     cells st' !! (r, c) = cells st !! (r, c)) /\
  lastrow_of env st' = lastrow_of env st /\
  (forall n, portfolio env st' n = portfolio env st n).
Proof.
  cbn zeta.
  assert (Hcells : forall r c, c <> 6%nat -> c <> 7%nat -> (r, c) <> (2, 11)%nat ->
     cells (exec (updateMasterList env) st) !! (r, c) = cells st !! (r, c)).
  { intros r c H6 H7 Hk. unfold exec.
    destruct (lookupPrices env st) as [[[lastrow prices]|e] st1] eqn:E.
    - destruct (run_normal env st lastrow prices st1 E)
        as (qs & _ & _ & _ & st2 & -> & _ & Hother).
      cbn [snd]. rewrite Hother by (left; split; assumption).
      apply lookup_insert_ne. congruence.
    - destruct (run_abort env st e st1 E) as [-> Hc]. cbn [snd]. rewrite Hc.
      apply lookup_insert_ne. congruence. }
  split; [exact Hcells |]. split.
  - unfold lastrow_of, read_cell. rewrite Hcells; [reflexivity | lia | lia | congruence].
  - intros n. unfold portfolio. apply list_fmap_ext. intros i k _.
    unfold read_cell. rewrite !Hcells; [reflexivity | lia | lia | congruence | lia | lia | congruence].
Qed.

(** X10.  When the range of the portfolio has [n] rows and no fetch
    from the start of the run on is answered with status 200, the run
    ends normally, every portfolio row has [-1] in [new_price], and
    every [buffered_price] is what it was before the run. *)
Theorem offline_run_keeps_buffer (env : Env) (st : State) (n : nat) :
  rows_of (Z.pred <$> lastrow_of env st) = Some n ->
  (forall j url, is_200 (network env (fetched st + j)%nat url) = false) ->
  outcome (updateMasterList env) st = Normal tt /\
  forall k, (k < n)%nat ->
    new_price (exec (updateMasterList env) st) k = Some (VNumber minus_one) /\
    buffered_price (exec (updateMasterList env) st) k = buffered_price st k.
Proof.
  intros Hrows Hoff.
  pose proof (lookupPrices_run env st) as H. rewrite Hrows, bind_run in H.
  destruct (lookup_in_order_offline env (portfolio env st n) (after_reading env st n))
    as [st1 Hst1]; [exact Hoff |].
  assert (Hlen : length (portfolio env st n) = n)
    by (unfold portfolio; rewrite length_fmap, length_seq; reflexivity).
  rewrite Hlen in Hst1. rewrite Hst1, ret_run in H.
  destruct (run_normal env st _ _ st1 H)
    as (qs & _ & Hn & Hqs & st2 & Hupd & Hrowsk & _).
  rewrite Hrows in Hn. injection Hn as Hn. rewrite <- Hn, Hst1 in Hqs.
  injection Hqs as <-.
  unfold outcome, exec. rewrite Hupd. cbn [fst snd].
  split; [reflexivity |]. intros k Hk.
  destruct (Hrowsk k minus_one) as [Hnew Hbuf].
  { apply lookup_replicate. split; [reflexivity | exact Hk]. }
  split; [exact Hnew |]. rewrite Hbuf. reflexivity.
Qed.

Lemma offline_run_keeps_buffer_witness :
  outcome (updateMasterList Edge.env_offline) Example.start = Normal tt /\
  forall k, (k < 2)%nat ->
    new_price (exec (updateMasterList Edge.env_offline) Example.start) k
      = Some (VNumber minus_one) /\
    buffered_price (exec (updateMasterList Edge.env_offline) Example.start) k
      = buffered_price Example.start k.
Proof.
  apply (offline_run_keeps_buffer Edge.env_offline Example.start 2).
  - vm_compute. reflexivity.
  - intros j url. reflexivity.
Defined.

(** X11.  In every run, however it ends, the clock is read exactly
    once and the timestamp cell K2 is written exactly once, with that
    reading. *)
Theorem timestamp_written_once (env : Env) (st : State) :
  let st' := exec (updateMasterList env) st in
  ticks st' = S (ticks st) /\
  exists es,
    trace st' = trace st ++ es /\
    filter writes_timestamp es = [ESetValue 2 11 (VText (clock env (ticks st)))].
Proof.
  cbn zeta. unfold exec. rewrite updateMasterList_unfold.
  destruct (after_stamping_unstamped env st (after_timestamp env st))
    as [Hticks (es & Htrace & Hes)].
  split; [rewrite Hticks; reflexivity |].
  exists ([EGetValue 1 11; ESetValue 2 11 (VText (clock env (ticks st)))] ++ es).
  split.
  - rewrite Htrace. unfold after_timestamp. cbn [trace].
    rewrite <- !app_assoc. reflexivity.
  - rewrite filter_app, Hes. reflexivity.
Qed.

(** X12.  [testwrite] always ends normally: whatever LASTROW holds, it
    writes 1 to 5 into F2 to F6 and leaves every other cell, the
    buffered prices and the timestamp among them, as it was; it fetches
    nothing and does not read the clock. *)
Theorem testwrite_overwrites_five_prices (env : Env) (st : State) :
  let st' := exec (testwrite env) st in
  outcome (testwrite env) st = Normal tt /\
  (forall k, (k < 5)%nat ->
     new_price st' k = Some (VNumber (of_Z (Z.of_nat (S k))))) /\
  (forall r c, c <> 6%nat \/ (r < 2)%nat \/ (7 <= r)%nat ->
     cells st' !! (r, c) = cells st !! (r, c)) /\
  fetched st' = fetched st /\ ticks st' = ticks st /\
  trace st' = trace st ++
    [EGetValue 1 11;
     ESetValues 2 6 5 (VNumber <$> [of_Z 1; of_Z 2; of_Z 3; of_Z 4; of_Z 5])].
Proof.
  cbn zeta. unfold outcome, exec.
  assert (Hrun : testwrite env st =
    (Normal tt,
     log (ESetValues 2 6 5 (VNumber <$> [of_Z 1; of_Z 2; of_Z 3; of_Z 4; of_Z 5]))
       (write_column 2 6 (VNumber <$> [of_Z 1; of_Z 2; of_Z 3; of_Z 4; of_Z 5])
          (log (EGetValue 1 11) st)))) by reflexivity.
  rewrite Hrun. cbn [fst snd]. split; [reflexivity |]. split; [| split].
  - intros k Hk. unfold new_price, log. cbn [cells]. rewrite write_column_cells.
    rewrite bool_decide_eq_true_2 by (cbn [length fmap list_fmap]; lia).
    replace (2 + k - 2)%nat with k by lia.
    do 5 (destruct k as [|k]; [reflexivity |]). lia.
  - intros r c Hrc. unfold log. cbn [cells]. rewrite write_column_cells.
    rewrite bool_decide_eq_false_2; [reflexivity |].
    cbn [length fmap list_fmap]. lia.
  - unfold log. cbn [fetched ticks trace].
    destruct (write_column_counters
                (VNumber <$> [of_Z 1; of_Z 2; of_Z 3; of_Z 4; of_Z 5]) 2 6
                (mkState (cells st) (fetched st) (drawn st) (ticks st)
                   (trace st ++ [EGetValue 1 11]))) as (-> & _ & ->).
    rewrite write_column_trace. cbn [fetched ticks trace].
    rewrite <- app_assoc. repeat split.
Qed.

(** ** Integers as text and back *)

Lemma pretty_N_char_digit d :
  (d < 10)%N ->
  is_digit (pretty_N_char d) = true /\ digit_value (pretty_N_char d) = Z.of_N d.
Proof.
  intros Hd.
  assert (H : (d = 0 \/ d = 1 \/ d = 2 \/ d = 3 \/ d = 4 \/ d = 5 \/ d = 6 \/
               d = 7 \/ d = 8 \/ d = 9)%N) by lia.
  repeat (destruct H as [->|H]; [split; reflexivity |]).
  subst d. split; reflexivity.
Qed.

Lemma pretty_N_go_digits x : forall s,
  every is_digit s = true ->
  every is_digit (pretty_N_go x s) = true /\
  digits_value_from 0 (pretty_N_go x s) = digits_value_from (Z.of_N x) s.
Proof.
  induction (N.lt_wf_0 x) as [x _ IH]. intros s Hs.
  destruct (decide (x = 0%N)) as [->|Hx].
  - rewrite pretty_N_go_0. split; [exact Hs | reflexivity].
  - rewrite pretty_N_go_step by lia.
    destruct (pretty_N_char_digit (x mod 10)) as [Hd Hv];
      [apply N.mod_lt; discriminate |].
    destruct (IH (x / 10)%N) with (s := String (pretty_N_char (x mod 10)) s)
      as [H1 H2].
    + apply N.div_lt; lia.
    + cbn [every]. rewrite Hd, Hs. reflexivity.
    + split; [exact H1 |]. rewrite H2. cbn [digits_value_from]. rewrite Hv.
      f_equal. rewrite N2Z.inj_div, N2Z.inj_mod.
      change (Z.of_N 10) with 10. pose proof (Z.div_mod (Z.of_N x) 10). lia.
Qed.

Lemma pretty_pos_digits p :
  every is_digit (pretty (Z.pos p)) = true /\
  digits_value (pretty (Z.pos p)) = Z.pos p.
Proof.
  change (pretty (Z.pos p)) with (pretty_N_go (N.pos p) "").
  destruct (pretty_N_go_digits (N.pos p) "" eq_refl) as [H1 H2].
  split; [exact H1 |]. unfold digits_value. rewrite H2. reflexivity.
Qed.

Lemma Qred_inject_Z z : Qred (inject_Z z) = inject_Z z.
Proof.
  unfold Qred, inject_Z.
  pose proof (Z.ggcd_gcd z 1) as Hg. pose proof (Z.ggcd_correct_divisors z 1) as Hd.
  change (Z.pos 1) with 1. destruct (Z.ggcd z 1) as [g [a b]].
  cbn [fst] in Hg. rewrite Z.gcd_1_r in Hg. subst g. destruct Hd as [Ha Hb].
  rewrite Z.mul_1_l in Ha, Hb. subst a b. reflexivity.
Qed.

Lemma digit_is_plain c :
  is_digit c = true ->
  is_white_space c = false /\
  c <> "-"%char /\ c <> "+"%char /\ c <> "."%char /\ c <> "I"%char /\
  c <> "x"%char /\ c <> "X"%char /\ c <> "o"%char /\ c <> "O"%char /\
  c <> "b"%char /\ c <> "B"%char.
Proof.
  destruct c as [[] [] [] [] [] [] [] []]; intros H;
    try discriminate H; repeat split; discriminate.
Qed.

Lemma span_all p s : every p s = true -> span p s = (s, "").
Proof.
  induction s as [|c s IH]; [reflexivity |]. cbn [every span]. intros H.
  apply andb_prop in H as [Hc Hs]. rewrite Hc, (IH Hs). reflexivity.
Qed.

Lemma trim_end_plain s :
  every (fun c => negb (is_white_space c)) s = true -> trim_end s = s.
Proof.
  induction s as [|c s IH]; [reflexivity |]. cbn [every trim_end]. intros H.
  apply andb_prop in H as [Hc Hs]. rewrite (IH Hs).
  apply negb_true_iff in Hc. rewrite Hc, andb_false_r. reflexivity.
Qed.

Section Digits.
Variable s : string.
Hypothesis Hs : every is_digit s = true.
Hypothesis Hne : s <> "".

Lemma unsigned_integer_digits : unsigned_integer s = Some (digits_value s).
Proof.
  pose proof (span_all _ _ Hs) as Hspan.
  destruct s as [|c s'] eqn:Es; [congruence |].
  assert (Hdefault :
    (let '(ds, _) := span is_digit (String c s') in
     if bool_decide (ds = "") then None else Some (digits_value ds))
    = Some (digits_value (String c s'))).
  { rewrite Hspan. reflexivity. }
  destruct (decide (c = "0"%char)) as [->|Hc].
  - destruct s' as [|x rest]; [exact Hdefault |].
    cbn [every] in Hs. apply andb_prop in Hs as [_ Hx].
    apply andb_prop in Hx as [Hx _].
    destruct (digit_is_plain x Hx) as (_ & _ & _ & _ & _ & H1 & H2 & _).
    unfold unsigned_integer.
    rewrite (bool_decide_eq_false_2 _ H1), (bool_decide_eq_false_2 _ H2).
    cbn [orb]. rewrite Hspan. reflexivity.
  - clear - Hc Hdefault.
    destruct c as [[] [] [] [] [] [] [] []]; try exact Hdefault.
    congruence.
Qed.

Lemma radix_literal_digits : radix_literal s = None.
Proof.
  destruct s as [|c s'] eqn:Es; [reflexivity |].
  destruct (decide (c = "0"%char)) as [->|Hc].
  - destruct s' as [|x rest]; [reflexivity |].
    cbn [every] in Hs. apply andb_prop in Hs as [_ Hx].
    apply andb_prop in Hx as [Hx _].
    destruct (digit_is_plain x Hx)
      as (_ & _ & _ & _ & _ & H1 & H2 & H3 & H4 & H5 & H6).
    unfold radix_literal.
    rewrite (bool_decide_eq_false_2 _ H1), (bool_decide_eq_false_2 _ H2),
      (bool_decide_eq_false_2 _ H3), (bool_decide_eq_false_2 _ H4),
      (bool_decide_eq_false_2 _ H5), (bool_decide_eq_false_2 _ H6).
    reflexivity.
  - clear - Hc.
    destruct c as [[] [] [] [] [] [] [] []]; try reflexivity.
    congruence.
Qed.

Lemma read_unsigned_digits :
  read_unsigned s = Some (of_Z (digits_value s), "").
Proof.
  unfold read_unsigned.
  assert (Hinf : strip_prefix "Infinity" s = None).
  { destruct s as [|c s']; [reflexivity |]. cbn [every] in Hs.
    apply andb_prop in Hs as [Hc _].
    destruct (digit_is_plain c Hc) as (_ & _ & _ & _ & HI & _).
    cbn [strip_prefix]. rewrite bool_decide_eq_false_2 by congruence. reflexivity. }
  rewrite Hinf, (span_all _ _ Hs).
  rewrite (bool_decide_eq_false_2 _ Hne). cbn [andb exponent_part String.length].
  rewrite append_nil_r. unfold scale10. cbn [Z.of_nat Z.sub Z.opp Z.leb Z.compare].
  unfold of_Z. do 3 f_equal. rewrite Z.pow_0_r, Z.mul_1_r.
  apply Qred_inject_Z.
Qed.

Lemma digits_plain :
  trim_start s = s /\ trim_end s = s /\
  exists c s', s = String c s' /\ c <> "-"%char /\ c <> "+"%char.
Proof.
  split; [| split].
  - destruct s as [|c s']; [reflexivity |]. cbn [every] in Hs.
    apply andb_prop in Hs as [Hc _].
    destruct (digit_is_plain c Hc) as (Hw & _). cbn [trim_start]. rewrite Hw.
    reflexivity.
  - apply trim_end_plain. revert Hs. apply every_impl. intros c Hc.
    destruct (digit_is_plain c Hc) as (-> & _). reflexivity.
  - destruct s as [|c s']; [congruence |]. cbn [every] in Hs.
    apply andb_prop in Hs as [Hc _].
    destruct (digit_is_plain c Hc) as (_ & H1 & H2 & _). eauto.
Qed.

Lemma parseInt_digits : parseInt s = Some (digits_value s).
Proof.
  destruct digits_plain as (Ht & _ & c & s' & Es & H1 & H2).
  unfold parseInt. rewrite Ht. rewrite Es.
  rewrite (bool_decide_eq_false_2 _ H1), (bool_decide_eq_false_2 _ H2).
  rewrite <- Es. apply unsigned_integer_digits.
Qed.

Lemma parseFloat_digits : parseFloat s = of_Z (digits_value s).
Proof.
  destruct digits_plain as (Ht & _ & c & s' & Es & H1 & H2).
  unfold parseFloat. rewrite Ht. rewrite Es.
  rewrite (bool_decide_eq_false_2 _ H1), (bool_decide_eq_false_2 _ H2).
  rewrite <- Es. unfold unsigned_literal. rewrite read_unsigned_digits. reflexivity.
Qed.

Lemma ToNumber_digits : ToNumber s = of_Z (digits_value s).
Proof.
  destruct digits_plain as (Ht & Ht' & c & s' & Es & H1 & H2).
  unfold ToNumber. rewrite Ht, Ht', (bool_decide_eq_false_2 _ Hne).
  rewrite radix_literal_digits. unfold decimal_literal. rewrite Es.
  rewrite (bool_decide_eq_false_2 _ H1), (bool_decide_eq_false_2 _ H2).
  rewrite <- Es, read_unsigned_digits. reflexivity.
Qed.

End Digits.

Lemma pretty_pos_nonempty p : pretty (Z.pos p) <> "".
Proof.
  intros E. destruct (pretty_pos_digits p) as [_ Hv]. rewrite E in Hv.
  discriminate Hv.
Qed.

(** The text of an integer, read by [parseInt], [parseFloat] and
    ToNumber, is the integer. *)
Lemma pretty_reads_back z :
  parseInt (pretty z) = Some z /\
  parseFloat (pretty z) = of_Z z /\
  ToNumber (pretty z) = of_Z z.
Proof.
  destruct z as [|p|p].
  - repeat split.
  - destruct (pretty_pos_digits p) as [Hs Hv].
    pose proof (pretty_pos_nonempty p) as Hne.
    rewrite (parseInt_digits _ Hs Hne), (parseFloat_digits _ Hs Hne),
      (ToNumber_digits _ Hs Hne), Hv.
    repeat split.
  - destruct (pretty_pos_digits p) as [Hs Hv].
    pose proof (pretty_pos_nonempty p) as Hne.
    change (pretty (Z.neg p)) with (String "-" (pretty (Z.pos p))).
    assert (Hneg : negate (of_Z (Z.pos p)) = of_Z (Z.neg p)).
    { unfold negate, of_Z. f_equal. apply (Qred_inject_Z (Z.neg p)). }
    split; [| split].
    + unfold parseInt. cbn [trim_start].
      change (is_white_space "-") with false. cbv iota.
      rewrite bool_decide_eq_true_2 by reflexivity.
      rewrite (unsigned_integer_digits _ Hs Hne), Hv. reflexivity.
    + unfold parseFloat. cbn [trim_start].
      change (is_white_space "-") with false. cbv iota.
      rewrite bool_decide_eq_true_2 by reflexivity.
      unfold unsigned_literal. rewrite (read_unsigned_digits _ Hs Hne), Hv.
      exact Hneg.
    + unfold ToNumber. cbn [trim_start].
      change (is_white_space "-") with false. cbv iota.
      rewrite trim_end_plain.
      2:{ cbn [every]. change (negb (is_white_space "-")) with true.
          cbn [andb]. revert Hs. apply every_impl. intros c Hc.
          destruct (digit_is_plain c Hc) as (-> & _). reflexivity. }
      rewrite bool_decide_eq_false_2 by discriminate.
      change (radix_literal (String "-" (pretty (Z.pos p)))) with (@None number).
      unfold decimal_literal. rewrite bool_decide_eq_true_2 by reflexivity.
      rewrite (read_unsigned_digits _ Hs Hne), Hv. exact Hneg.
Qed.

(** X13.  For a quote that is an integer [z] below [10^21] in
    magnitude, the text the one-element array [[z]] is compared and
    parsed through reads back as [z], whatever texts the environment
    supplies: [prices[k] != -1] holds exactly when [z] is not [-1], and
    [parseFloat(prices[k])] is [z]. *)
Theorem integer_quote_round_trip (env : Env) (z : Z) :
  Z.abs z < 10 ^ 21 ->
  differs_from_minus_one env (row (of_Z z)) = negb (z =? -1) /\
  parseFloat_slot env (row (of_Z z)) = of_Z z.
Proof.
  intros Hz. unfold differs_from_minus_one, parseFloat_slot, String_slot.
  rewrite (Number_toString_integer _ _ Hz).
  destruct (pretty_reads_back z) as (_ & -> & ->).
  split; [| reflexivity]. f_equal. unfold Number_equal, of_Z, minus_one.
  destruct (Z.eqb_spec z (-1)) as [->|Hne]; [reflexivity |].
  apply not_true_is_false. intros H. apply Qeq_bool_iff in H.
  unfold Qeq in H. cbn in H. lia.
Qed.

Lemma integer_quote_round_trip_witness :
  differs_from_minus_one Example.env_mixed (row (of_Z 28)) = negb (28 =? -1) /\
  parseFloat_slot Example.env_mixed (row (of_Z 28)) = of_Z 28.
Proof. apply integer_quote_round_trip. reflexivity. Defined.




